(** * A shallow embedding of [circular_progress_bar.py]

    The module defines one class, [CircularProgressBar], a widget whose
    attributes are guarded by validating property setters and whose value
    setter repaints the canvas.  The development below embeds

    - the Python values the setters inspect ([pyval]),
    - the two string methods used by the cap style setter ([lower],
      [strip]) and the fragment of [str.format] the label text goes
      through,
    - Python's [float] as the rationals that are binary64 numbers, with
      rounding to nearest, ties to even ([Float.binary64]),
    - the widget, the label objects it refers to and the canvas as an
      explicit store threaded through a small state-and-exception monad,
    - every setter, [_refresh_text], [get_normalised_progress] and [_draw],

    and then proves the properties of the specification about them. *)

From Stdlib Require Import ZArith QArith String Ascii List Lia DecimalString.
From stdpp Require Import gmap strings.
Import ListNotations.

Local Open Scope string_scope.
Local Open Scope Z_scope.

(** ** Exceptions *)

(** The exception classes that the code of the module raises or lets
    through.  The specification calls [TypeError] "InvalidType" and
    [ValueError] "InvalidValue". *)
Inductive exn : Set :=
| TypeError
| ValueError
| ZeroDivisionError
| OverflowError
| IndexError.

(** ** Strings *)

(** A Python [str] is embedded as a [string] whose characters are the code
    points below 256. *)
Module PyStr.

Definition code (c : ascii) : Z := Z.of_nat (nat_of_ascii c).

Definition chr (n : Z) : ascii := ascii_of_nat (Z.to_nat n).

(** [str.lower] on one code point: the capital letters [A]..[Z] and the
    capital letters of the Latin-1 block (U+00C0..U+00DE without the
    multiplication sign U+00D7) move up by 32. *)
Definition lower_char (c : ascii) : ascii :=
  let n := code c in
  if ((65 <=? n) && (n <=? 90)) ||
     ((192 <=? n) && (n <=? 222) && negb (n =? 215))
  then chr (n + 32)
  else c.

Fixpoint lower (s : string) : string :=
  match s with
  | EmptyString => EmptyString
  | String c r => String (lower_char c) (lower r)
  end.

(** [str.isspace] on one code point below 256. *)
Definition is_space (c : ascii) : bool :=
  let n := code c in
  ((9 <=? n) && (n <=? 13)) || ((28 <=? n) && (n <=? 32)) ||
  (n =? 133) || (n =? 160).

Fixpoint lstrip (s : string) : string :=
  match s with
  | EmptyString => EmptyString
  | String c r => if is_space c then lstrip r else s
  end.

Fixpoint rstrip (s : string) : string :=
  match s with
  | EmptyString => EmptyString
  | String c r =>
      match rstrip r with
      | EmptyString => if is_space c then EmptyString else String c EmptyString
      | r' => String c r'
      end
  end.

(** [str.strip()] without argument. *)
Definition strip (s : string) : string := rstrip (lstrip s).

(** [str(n)] for an [int]. *)
Definition str_of_int (n : Z) : string := NilZero.string_of_int (Z.to_int n).

(** *** [str.format] with one positional argument

    The template is read from left to right as CPython's markup iterator
    does.  The replacement fields covered are the automatic field and
    the field numbered zero, both without conversion and without format
    specification; on any other replacement field the model gives
    [FUnmodelled] and says nothing. *)
Inductive fmt_result : Set :=
| FOk (s : string)
| FRaise (e : exn)
| FUnmodelled.

(** Field numbering of one [format] call: nothing seen yet, automatic
    numbering in use (the only argument is consumed), manual numbering
    in use. *)
Inductive numbering : Set := NumInit | NumAuto | NumManual.

(** Where the reader stands: in literal text, just behind an opening
    brace, inside a field whose name read so far is [name], or just
    behind a closing brace. *)
Inductive place : Set :=
| InText
| AfterOpen
| InField (name : string)
| AfterClose.

Definition emit (prefix : string) (r : fmt_result) : fmt_result :=
  match r with
  | FOk s => FOk (prefix ++ s)
  | other => other
  end.

Definition is_char (c d : ascii) : bool := (code c =? code d).

Fixpoint format_from (p : place) (num : numbering) (arg s : string)
  : fmt_result :=
  let field (name : string) (c : ascii) (r : string) : fmt_result :=
    if is_char c "}" then
      (* the field is complete: look its argument up *)
      if String.eqb name "" then
        match num with
        | NumInit => emit arg (format_from InText NumAuto arg r)
        | NumAuto => FRaise IndexError
        | NumManual => FRaise ValueError
        end
      else if String.eqb name "0" then
        match num with
        | NumAuto => FRaise ValueError
        | _ => emit arg (format_from InText NumManual arg r)
        end
      else FUnmodelled
    else if is_char c "{" then FRaise ValueError
    else if is_char c "[" || is_char c ":" || is_char c "!" then FUnmodelled
    else format_from (InField (name ++ String c "")) num arg r
  in
  match s with
  | EmptyString =>
      match p with
      | InText => FOk ""
      | _ => FRaise ValueError
      end
  | String c r =>
      match p with
      | InText =>
          if is_char c "{" then format_from AfterOpen num arg r
          else if is_char c "}" then format_from AfterClose num arg r
          else emit (String c "") (format_from InText num arg r)
      | AfterOpen =>
          if is_char c "{" then emit "{" (format_from InText num arg r)
          else field "" c r
      | InField name => field name c r
      | AfterClose =>
          if is_char c "}" then emit "}" (format_from InText num arg r)
          else FRaise ValueError
      end
  end.

(** [template.format(arg)] *)
Definition format (template arg : string) : fmt_result :=
  format_from InText NumInit arg template.

End PyStr.

(** Whether a string is made of white space only. *)
Fixpoint blank (s : string) : bool :=
  match s with
  | EmptyString => true
  | String c r => PyStr.is_space c && blank r
  end.

(** ** Floats *)

(** A finite Python [float] is embedded as the rational it denotes.
    [binary64] rounds a rational to the nearest float, ties to even, down
    to the subnormal numbers; it gives [None] where the rounded value is
    beyond the largest float.  Signed zeros are not told apart. *)
Module Float.

(** [a / b] rounded to the nearest integer, ties to the even one; for
    [0 <= a] and [0 < b]. *)
Definition round_half_even (a b : Z) : Z :=
  let k := a / b in
  let r := a mod b in
  if 2 * r <? b then k
  else if b <? 2 * r then k + 1
  else if Z.even k then k else k + 1.

(** [n / d < 2 ^ e] *)
Definition below_pow2 (n d e : Z) : bool :=
  if 0 <=? e then n <? d * 2 ^ e else n * 2 ^ (- e) <? d.

(** The [e] with [2 ^ e <= n / d < 2 ^ (e + 1)], for positive [n], [d]. *)
Definition exponent (n d : Z) : Z :=
  let e := Z.log2 n - Z.log2 d in
  if below_pow2 n d e then e - 1 else e.

(** Rounding of [n / d] for positive [n] and [d]; the unit in the last
    place is [2 ^ u]. *)
Definition round_pos (n d : Z) : option Q :=
  let u := Z.max (exponent n d - 52) (- 1074) in
  if 0 <=? u then
    let m := round_half_even n (d * 2 ^ u) in
    if 2 ^ 1024 <=? m * 2 ^ u then None else Some (inject_Z (m * 2 ^ u))
  else
    let m := round_half_even (n * 2 ^ (- u)) d in
    Some (Qred (m # Z.to_pos (2 ^ (- u)))).

Definition binary64 (q : Q) : option Q :=
  match Qnum (Qred q) with
  | 0 => Some 0%Q
  | Z.pos n => round_pos (Z.pos n) (Z.pos (Qden (Qred q)))
  | Z.neg n => option_map Qopp (round_pos (Z.pos n) (Z.pos (Qden (Qred q))))
  end.

(** A float literal of the source. *)
Definition literal (q : Q) : Q :=
  match binary64 q with
  | Some x => x
  | None => 0%Q
  end.

(** [int(x)]: truncation towards zero. *)
Definition to_int (x : Q) : Z := Z.quot (Qnum x) (Z.pos (Qden x)).

End Float.

(** ** Python values *)

(** The values a caller can hand to a setter.  A label object is passed by
    reference: [PLabel r] is the object stored at address [r].
    [POtherIterable] stands for an iterable of any other kind (a set, a
    dict, a range, a generator or another iterator): what iterating it
    yields, and whether it can be iterated a second time, is not
    modelled. *)
#[warnings="-register-all"]
Inductive pyval : Type :=
| PNone
| PBool (b : bool)
| PInt (n : Z)
| PFloat (q : Q)
| PStr (s : string)
| PTuple (items : list pyval)
| PList (items : list pyval)
| PLabel (ref : nat)
| POtherIterable.

(** [type(value) != int] holds for everything but [PInt]; a [bool] is not
    of type [int]. *)
Definition as_int (value : pyval) : option Z :=
  match value with
  | PInt n => Some n
  | _ => None
  end.

(** [isinstance(value, Iterable)] *)
Definition is_iterable (value : pyval) : bool :=
  match value with
  | PStr _ | PTuple _ | PList _ | POtherIterable => true
  | _ => false
  end.

(** The items [*value] unpacks to, for a [str], a [tuple] or a [list]:
    these give the same items every time they are iterated. *)
Definition unpack (value : pyval) : option (list pyval) :=
  match value with
  | PStr s => Some (map (fun c => PStr (String c "")) (list_ascii_of_string s))
  | PTuple items | PList items => Some items
  | _ => None
  end.

(** ** Labels, canvas and widget *)

(** What the rasteriser made of a label: the text it drew and the pixel
    size of the result. *)
Record Texture : Type := mkTexture {
  rendered : string;
  size : Z * Z
}.

(** A [kivy.core.text.Label]: its text, its font size and the texture of
    the last [refresh()] ([None] before the first one). *)
Record Label : Type := mkLabel {
  text : string;
  font_size : Z;
  texture : option Texture
}.

(** The canvas instructions [_draw] issues. *)
Inductive instruction : Type :=
| Color (rgba : list pyval)
| Line (circle : list Q) (width : Z) (cap : option (string * Z))
| Rectangle (tex : option Texture) (rsize : Z * Z) (rpos : Q * Q).

(** The attributes of a [CircularProgressBar], with the position (two
    floats) and the canvas it inherits from [Widget]. *)
Record CircularProgressBar : Type := mkBar {
  _thickness : Z;
  _cap_style : string;
  _cap_precision : Z;
  _progress_colour : pyval;
  _background_colour : pyval;
  _max_progress : Z;
  _min_progress : Z;
  _widget_size : Z;
  _text_label : nat;
  _value : Z;
  _default_label_text : string;
  _label_size : Z * Z;
  pos : Q * Q;
  canvas : list instruction
}.

(** The store: the label objects by address, the widget, and a ghost
    counter of the calls to [_draw] (the redraw spy). *)
Record World : Type := mkWorld {
  labels : gmap nat Label;
  bar : CircularProgressBar;
  draw_calls : nat
}.

(** ** The monad of the methods *)

(** A method call takes the store and either returns with a new store,
    raises with the store as it is at the raise, or leaves the fragment
    the embedding covers ([Unmodelled]: a replacement field [PyStr.format]
    does not model, a float operation whose result is infinite, or a
    label address nothing is stored at). *)
Inductive result (A : Type) : Type :=
| Ret (a : A) (w : World)
| Raise (e : exn) (w : World)
| Unmodelled.

Arguments Ret {A} a w.
Arguments Raise {A} e w.
Arguments Unmodelled {A}.

Definition M (A : Type) : Type := World -> result A.

Definition ret {A : Type} (a : A) : M A := fun w => Ret a w.

Definition raise {A : Type} (e : exn) : M A := fun w => Raise e w.

Definition unmodelled {A : Type} : M A := fun _ => Unmodelled.

Definition bind {A B : Type} (c : M A) (k : A -> M B) : M B :=
  fun w =>
    match c w with
    | Ret a w' => k a w'
    | Raise e w' => Raise e w'
    | Unmodelled => Unmodelled
    end.

Declare Scope py_scope.
Delimit Scope py_scope with py.
Bind Scope py_scope with M.

Notation "x <- c ;; k" := (bind c (fun x => k))
  (at level 100, c at next level, right associativity) : py_scope.
Notation "c ;; k" := (bind c (fun _ => k))
  (at level 100, right associativity) : py_scope.

(** Reading [self] and assigning to its attributes. *)
Definition self : M CircularProgressBar := fun w => Ret (bar w) w.

Definition assign (f : CircularProgressBar -> CircularProgressBar) : M unit :=
  fun w => Ret tt (mkWorld (labels w) (f (bar w)) (draw_calls w)).

Definition label_at (r : nat) : M Label :=
  fun w =>
    match labels w !! r with
    | Some l => Ret l w
    | None => Unmodelled
    end.

Definition store_label (r : nat) (l : Label) : M unit :=
  fun w => Ret tt (mkWorld (<[r := l]> (labels w)) (bar w) (draw_calls w)).

(** The spy: one more call to [_draw]. *)
Definition count_draw : M unit :=
  fun w => Ret tt (mkWorld (labels w) (bar w) (S (draw_calls w))).

(** [self.<attribute> = x], one function per attribute. *)
Definition with_thickness (x : Z) (b : CircularProgressBar) :=
  mkBar x (_cap_style b) (_cap_precision b) (_progress_colour b)
    (_background_colour b) (_max_progress b) (_min_progress b)
    (_widget_size b) (_text_label b) (_value b) (_default_label_text b)
    (_label_size b) (pos b) (canvas b).

Definition with_cap_style (x : string) (b : CircularProgressBar) :=
  mkBar (_thickness b) x (_cap_precision b) (_progress_colour b)
    (_background_colour b) (_max_progress b) (_min_progress b)
    (_widget_size b) (_text_label b) (_value b) (_default_label_text b)
    (_label_size b) (pos b) (canvas b).

Definition with_cap_precision (x : Z) (b : CircularProgressBar) :=
  mkBar (_thickness b) (_cap_style b) x (_progress_colour b)
    (_background_colour b) (_max_progress b) (_min_progress b)
    (_widget_size b) (_text_label b) (_value b) (_default_label_text b)
    (_label_size b) (pos b) (canvas b).

Definition with_progress_colour (x : pyval) (b : CircularProgressBar) :=
  mkBar (_thickness b) (_cap_style b) (_cap_precision b) x
    (_background_colour b) (_max_progress b) (_min_progress b)
    (_widget_size b) (_text_label b) (_value b) (_default_label_text b)
    (_label_size b) (pos b) (canvas b).

Definition with_background_colour (x : pyval) (b : CircularProgressBar) :=
  mkBar (_thickness b) (_cap_style b) (_cap_precision b) (_progress_colour b)
    x (_max_progress b) (_min_progress b)
    (_widget_size b) (_text_label b) (_value b) (_default_label_text b)
    (_label_size b) (pos b) (canvas b).

Definition with_max_progress (x : Z) (b : CircularProgressBar) :=
  mkBar (_thickness b) (_cap_style b) (_cap_precision b) (_progress_colour b)
    (_background_colour b) x (_min_progress b)
    (_widget_size b) (_text_label b) (_value b) (_default_label_text b)
    (_label_size b) (pos b) (canvas b).

Definition with_min_progress (x : Z) (b : CircularProgressBar) :=
  mkBar (_thickness b) (_cap_style b) (_cap_precision b) (_progress_colour b)
    (_background_colour b) (_max_progress b) x
    (_widget_size b) (_text_label b) (_value b) (_default_label_text b)
    (_label_size b) (pos b) (canvas b).

Definition with_widget_size (x : Z) (b : CircularProgressBar) :=
  mkBar (_thickness b) (_cap_style b) (_cap_precision b) (_progress_colour b)
    (_background_colour b) (_max_progress b) (_min_progress b)
    x (_text_label b) (_value b) (_default_label_text b)
    (_label_size b) (pos b) (canvas b).

Definition with_text_label (x : nat) (b : CircularProgressBar) :=
  mkBar (_thickness b) (_cap_style b) (_cap_precision b) (_progress_colour b)
    (_background_colour b) (_max_progress b) (_min_progress b)
    (_widget_size b) x (_value b) (_default_label_text b)
    (_label_size b) (pos b) (canvas b).

Definition with_value (x : Z) (b : CircularProgressBar) :=
  mkBar (_thickness b) (_cap_style b) (_cap_precision b) (_progress_colour b)
    (_background_colour b) (_max_progress b) (_min_progress b)
    (_widget_size b) (_text_label b) x (_default_label_text b)
    (_label_size b) (pos b) (canvas b).

Definition with_default_label_text (x : string) (b : CircularProgressBar) :=
  mkBar (_thickness b) (_cap_style b) (_cap_precision b) (_progress_colour b)
    (_background_colour b) (_max_progress b) (_min_progress b)
    (_widget_size b) (_text_label b) (_value b) x
    (_label_size b) (pos b) (canvas b).

Definition with_label_size (x : Z * Z) (b : CircularProgressBar) :=
  mkBar (_thickness b) (_cap_style b) (_cap_precision b) (_progress_colour b)
    (_background_colour b) (_max_progress b) (_min_progress b)
    (_widget_size b) (_text_label b) (_value b) (_default_label_text b)
    x (pos b) (canvas b).

Definition with_canvas (x : list instruction) (b : CircularProgressBar) :=
  mkBar (_thickness b) (_cap_style b) (_cap_precision b) (_progress_colour b)
    (_background_colour b) (_max_progress b) (_min_progress b)
    (_widget_size b) (_text_label b) (_value b) (_default_label_text b)
    (_label_size b) (pos b) x.

(** ** Module constants *)

Definition _ACCEPTED_BAR_CAPS : gset string := {["round"; "none"; "square"]}.

Definition _DEFAULT_THICKNESS : Z := 10.
Definition _DEFAULT_CAP_STYLE : string := "round".
Definition _DEFAULT_PRECISION : Z := 10.
Definition _DEFAULT_MAX_PROGRESS : Z := 100.
Definition _DEFAULT_MIN_PROGRESS : Z := 0.
Definition _DEFAULT_WIDGET_SIZE : Z := 200.

(** The address of the module-level label object, and the label store
    right after the module is imported:
    [_DEFAULT_TEXT_LABEL = Label(text="{}%", font_size=40)]. *)
Definition _DEFAULT_TEXT_LABEL : nat := 0%nat.

Definition imported_labels : gmap nat Label :=
  {[ _DEFAULT_TEXT_LABEL := mkLabel "{}%" 40 None ]}.

Definition _NORMALISED_MAX : Z := 1.
Definition _NORMALISED_MIN : Z := 0.


Definition _DEFAULT_PROGRESS_COLOUR : pyval :=
  PTuple [PInt 1; PInt 0; PInt 0; PInt 1].

Definition _DEFAULT_BACKGROUND_COLOUR : pyval :=
  PTuple [PFloat (Float.literal (26 # 100)); PFloat (Float.literal (26 # 100));
          PFloat (Float.literal (26 # 100)); PInt 1].

(** ** Arithmetic of the methods *)

Local Open Scope py_scope.

(** The conversion of an [int] operand where the other operand is a
    [float]; an [int] beyond the largest float raises. *)
Definition float_of_int (n : Z) : M Q :=
  match Float.binary64 (inject_Z n) with
  | Some x => ret x
  | None => raise OverflowError
  end.

(** The result of [+], [-] or [*] on two floats; the embedding stops
    where Python would go on with an infinity. *)
Definition float_result (q : Q) : M Q :=
  match Float.binary64 q with
  | Some x => ret x
  | None => unmodelled
  end.

Definition fadd (a b : Q) : M Q := float_result (a + b).
Definition fsub (a b : Q) : M Q := float_result (a - b).
Definition fmul (a b : Q) : M Q := float_result (a * b).

(** [a / b] on two [int]s: the quotient of the integers, rounded once. *)
Definition truediv (a b : Z) : M Q :=
  if b =? 0 then raise ZeroDivisionError
  else match Float.binary64 (inject_Z a / inject_Z b) with
       | Some x => ret x
       | None => raise OverflowError
       end.

(** ** The class *)

(** [__init__]: the attributes of a new widget at position [p];
    [_default_label_text] is read off the module-level label object. *)
Definition new_bar (p : Q * Q) (default_text : string) : CircularProgressBar :=
  {| _thickness := _DEFAULT_THICKNESS;
     _cap_style := _DEFAULT_CAP_STYLE;
     _cap_precision := _DEFAULT_PRECISION;
     _progress_colour := _DEFAULT_PROGRESS_COLOUR;
     _background_colour := _DEFAULT_BACKGROUND_COLOUR;
     _max_progress := _DEFAULT_MAX_PROGRESS;
     _min_progress := _DEFAULT_MIN_PROGRESS;
     _widget_size := _DEFAULT_WIDGET_SIZE;
     _text_label := _DEFAULT_TEXT_LABEL;
     _value := _DEFAULT_MIN_PROGRESS;
     _default_label_text := default_text;
     _label_size := (0, 0);
     pos := p;
     canvas := [] |}.

Definition __init__ (p : Q * Q) : M unit :=
  l <- label_at _DEFAULT_TEXT_LABEL ;;
  assign (fun _ => new_bar p (text l)).

(** The first widget made after the import, at the origin. *)
Definition fresh : World :=
  mkWorld imported_labels (new_bar (0%Q, 0%Q) "{}%") 0.

(** *** Setters *)

(** [@thickness.setter] *)
Definition set_thickness (value : pyval) : M unit :=
  match as_int value with
  | None => raise TypeError
  | Some v =>
      if v <=? 0 then raise ValueError
      else assign (with_thickness v)
  end.

(** [@cap_style.setter] *)
Definition set_cap_style (value : pyval) : M unit :=
  match value with
  | PStr s =>
      let value := PyStr.strip (PyStr.lower s) in
      if negb (bool_decide (value ∈ _ACCEPTED_BAR_CAPS)) then raise ValueError
      else assign (with_cap_style value)
  | _ => raise TypeError
  end.

(** [@cap_precision.setter] *)
Definition set_cap_precision (value : pyval) : M unit :=
  match as_int value with
  | None => raise TypeError
  | Some v =>
      if v <=? 0 then raise ValueError
      else assign (with_cap_precision v)
  end.

(** [@progress_colour.setter] *)
Definition set_progress_colour (value : pyval) : M unit :=
  if negb (is_iterable value) then raise TypeError
  else assign (with_progress_colour value).

(** [@background_colour.setter] *)
Definition set_background_colour (value : pyval) : M unit :=
  if negb (is_iterable value) then raise TypeError
  else assign (with_background_colour value).

(** [@max.setter] *)
Definition set_max (value : pyval) : M unit :=
  match as_int value with
  | None => raise TypeError
  | Some v =>
      b <- self ;;
      if v <=? _min_progress b then raise ValueError
      else assign (with_max_progress v)
  end.

(** [@min.setter] *)
Definition set_min (value : pyval) : M unit :=
  match as_int value with
  | None => raise TypeError
  | Some v =>
      b <- self ;;
      if v >? _max_progress b then raise ValueError
      else (assign (with_min_progress v) ;;
            assign (with_value v))
  end.

(** [@widget_size.setter] *)
Definition set_widget_size (value : pyval) : M unit :=
  match as_int value with
  | None => raise TypeError
  | Some v =>
      if v <=? 0 then raise ValueError
      else assign (with_widget_size v)
  end.

(** [@label.setter] *)
Definition set_label (value : pyval) : M unit :=
  match value with
  | PLabel r =>
      assign (with_text_label r) ;;
      l <- label_at r ;;
      assign (with_default_label_text (text l))
  | _ => raise TypeError
  end.

(** *** Normalisation *)

Definition get_normalised_progress : M Q :=
  b <- self ;;
  q <- truediv ((_value b - _min_progress b) *
                (_NORMALISED_MAX - _NORMALISED_MIN))
               (_max_progress b - _min_progress b) ;;
  lo <- float_of_int _NORMALISED_MIN ;;
  fadd lo q.

(** The argument handed to [format] in [_refresh_text]:
    [str(int(p * 100))]. *)
Definition percent_text (p : Q) : M string :=
  hundred <- float_of_int 100 ;;
  x <- fmul p hundred ;;
  ret (PyStr.str_of_int (Float.to_int x)).

(** *** Geometry *)

(** [offset + self._widget_size / 2], the centre of the circle along one
    axis, [offset] being [self.pos[0]] or [self.pos[1]]. *)
Definition centre (b : CircularProgressBar) (offset : Q) : M Q :=
  half <- truediv (_widget_size b) 2 ;;
  fadd offset half.

(** [self._widget_size / 2 - self._thickness] *)
Definition radius (b : CircularProgressBar) : M Q :=
  half <- truediv (_widget_size b) 2 ;;
  t <- float_of_int (_thickness b) ;;
  fsub half t.

(** [self._widget_size / 2 - extent / 2 + offset], the corner of the text
    along one axis, [extent] being a component of [self._label_size]. *)
Definition corner (b : CircularProgressBar) (extent : Z) (offset : Q) : M Q :=
  half <- truediv (_widget_size b) 2 ;;
  e <- truediv extent 2 ;;
  d <- fsub half e ;;
  fadd d offset.

(** [p * 360] *)
Definition sweep (p : Q) : M Q :=
  full <- float_of_int 360 ;;
  fmul p full.

(** [*colour] in a call; a colour that is not iterable cannot be
    unpacked, and what an iterable of another kind unpacks to is not
    modelled. *)
Definition star (colour : pyval) : M (list pyval) :=
  match unpack colour with
  | Some items => ret items
  | None => if is_iterable colour then unmodelled else raise TypeError
  end.

(** Whether [float(v)] is sure to return: on a [float], on a [bool], and
    on an [int] that is not beyond the largest float. *)
Definition is_number (v : pyval) : bool :=
  match v with
  | PFloat _ | PBool _ => true
  | PInt n =>
      match Float.binary64 (inject_Z n) with
      | Some _ => true
      | None => false
      end
  | _ => false
  end.

(** Appending one instruction to the canvas the [with] block opened. *)
Definition add (i : instruction) : M unit :=
  assign (fun b => with_canvas (canvas b ++ [i]) b).

(** Three or four numbers: the arguments of [Color] that are modelled. *)
Definition rgb_or_rgba (args : list pyval) : bool :=
  ((length args =? 3)%nat || (length args =? 4)%nat) &&
  forallb is_number args.

(** A call of [Color] inside [with self.canvas:], with the arguments
    [args].  The constructor is kivy's and converts its arguments with
    [float]; what it does with another number of arguments, or with an
    argument [float] may refuse, is not modelled.  With three or four
    numbers it adds the instruction. *)
Definition Color_call (args : list pyval) : M unit :=
  if rgb_or_rgba args then add (Color args) else unmodelled.

Section Widget.

(** The rasteriser, outside the module: [render_size t fs] is the pixel
    size it gives the text [t] at font size [fs]. *)
Variable render_size : string -> Z -> Z * Z.

(** *** Label text and drawing *)

(** [label.refresh()]: rasterise the current text. *)
Definition refresh (r : nat) : M unit :=
  l <- label_at r ;;
  store_label r
    (mkLabel (text l) (font_size l)
       (Some (mkTexture (text l) (render_size (text l) (font_size l))))).

Definition _refresh_text : M unit :=
  b <- self ;;
  p <- get_normalised_progress ;;
  arg <- percent_text p ;;
  match PyStr.format (_default_label_text b) arg with
  | PyStr.FRaise e => raise e
  | PyStr.FUnmodelled => unmodelled
  | PyStr.FOk t =>
      l <- label_at (_text_label b) ;;
      store_label (_text_label b) (mkLabel t (font_size l) (texture l)) ;;
      refresh (_text_label b) ;;
      l <- label_at (_text_label b) ;;
      match texture l with
      | Some tex => assign (with_label_size (size tex))
      | None => unmodelled
      end
  end.

(** The body of [_draw]: everything inside [with self.canvas:]. *)
Definition paint : M unit :=
  assign (with_canvas []) ;;
  _refresh_text ;;
  (* the background line *)
  b <- self ;;
  bg <- star (_background_colour b) ;;
  Color_call bg ;;
  x <- centre b (fst (pos b)) ;;
  y <- centre b (snd (pos b)) ;;
  r <- radius b ;;
  add (Line [x; y; r] (_thickness b) None) ;;
  (* the progress line *)
  fg <- star (_progress_colour b) ;;
  Color_call fg ;;
  x <- centre b (fst (pos b)) ;;
  y <- centre b (snd (pos b)) ;;
  r <- radius b ;;
  p <- get_normalised_progress ;;
  angle <- sweep p ;;
  add (Line [x; y; r; inject_Z 0; angle]
         (_thickness b) (Some (_cap_style b, _cap_precision b))) ;;
  (* the text in the middle *)
  Color_call [PInt 1; PInt 1; PInt 1; PInt 1] ;;
  l <- label_at (_text_label b) ;;
  cx <- corner b (fst (_label_size b)) (fst (pos b)) ;;
  cy <- corner b (snd (_label_size b)) (snd (pos b)) ;;
  add (Rectangle (texture l) (_label_size b) (cx, cy)).

Definition _draw : M unit :=
  count_draw ;;
  paint.

(** [@value.setter] *)
Definition set_value (value : pyval) : M unit :=
  match as_int value with
  | None => raise TypeError
  | Some v =>
      b <- self ;;
      if (_min_progress b >? v) && (v >? _max_progress b) then raise ValueError
      else if negb (v =? _value b) then
        (assign (with_value v) ;;
         _draw)
      else ret tt
  end.

(** *** Calls *)

Inductive setter : Set :=
| Thickness | CapStyle | CapPrecision | ProgressColour | BackgroundColour
| Max | Min | Value | WidgetSize | LabelAttr.

Definition call_setter (s : setter) : pyval -> M unit :=
  match s with
  | Thickness => set_thickness
  | CapStyle => set_cap_style
  | CapPrecision => set_cap_precision
  | ProgressColour => set_progress_colour
  | BackgroundColour => set_background_colour
  | Max => set_max
  | Min => set_min
  | Value => set_value
  | WidgetSize => set_widget_size
  | LabelAttr => set_label
  end.

(** [label.text = t] on the label object at [r], done by the program that
    owns the widget. *)
Definition set_label_text (r : nat) (t : string) : M unit :=
  l <- label_at r ;;
  store_label r (mkLabel t (font_size l) (texture l)).

(** One step of a program that uses the widget: an assignment to a
    property, one of the two methods that touch the label and the canvas,
    or an assignment to the text of a label object. *)
Inductive call : Type :=
| Assign (s : setter) (value : pyval)
| RefreshText
| Draw
| LabelText (r : nat) (t : string).

Definition run_call (c : call) : M unit :=
  match c with
  | Assign s value => call_setter s value
  | RefreshText => _refresh_text
  | Draw => _draw
  | LabelText r t => set_label_text r t
  end.

(** A sequence of calls, stopping at the first that raises. *)
Fixpoint run_calls (cs : list call) : M unit :=
  match cs with
  | [] => ret tt
  | c :: rest => run_call c ;; run_calls rest
  end.

End Widget.

(** ** Outcomes and reachable stores *)

(** The store a call leaves behind, whether it returned or raised. *)
Definition final {A : Type} (r : result A) : option World :=
  match r with
  | Ret _ w | Raise _ w => Some w
  | Unmodelled => None
  end.

(** The store a call ends in, [w] itself where the call leaves the model. *)
Definition after {A : Type} (r : result A) (w : World) : World :=
  match final r with
  | Some w' => w'
  | None => w
  end.

(** The stores a program can see: the one [__init__] makes, and any store
    a call leaves behind. *)
Inductive reachable (render_size : string -> Z -> Z * Z) : World -> Prop :=
| reachable_init (p : Q * Q) (w0 w : World) :
    __init__ p w0 = Ret tt w -> reachable render_size w
| reachable_call (c : call) (w w' : World) :
    reachable render_size w ->
    final (run_call render_size c w) = Some w' ->
    reachable render_size w'.

(** [c] relates the store it starts in to every store it ends in by [R]. *)
Definition respects {A : Type} (R : World -> World -> Prop) (c : M A) : Prop :=
  forall w w', final (c w) = Some w' -> R w w'.

(** What painting may change: the canvas, the label size and the label
    objects, and nothing else. *)
Definition paints_only (w w' : World) : Prop :=
  draw_calls w' = draw_calls w /\
  exists cv ls, bar w' = with_canvas cv (with_label_size ls (bar w)).

(** The store right after [self._value = v]. *)
Definition stored (v : Z) (w : World) : World :=
  mkWorld (labels w) (with_value v (bar w)) (draw_calls w).

(** What one call can do to the attributes of the widget. *)
Inductive config_step : CircularProgressBar -> CircularProgressBar -> Prop :=
| cs_same b : config_step b b
| cs_thickness b v : 0 < v -> config_step b (with_thickness v b)
| cs_cap_style b s :
    s ∈ _ACCEPTED_BAR_CAPS -> config_step b (with_cap_style s b)
| cs_cap_precision b v : 0 < v -> config_step b (with_cap_precision v b)
| cs_progress_colour b c :
    is_iterable c = true -> config_step b (with_progress_colour c b)
| cs_background_colour b c :
    is_iterable c = true -> config_step b (with_background_colour c b)
| cs_max b v : _min_progress b < v -> config_step b (with_max_progress v b)
| cs_min b v :
    v <= _max_progress b -> config_step b (with_value v (with_min_progress v b))
| cs_value b v cv ls :
    config_step b (with_canvas cv (with_label_size ls (with_value v b)))
| cs_widget_size b v : 0 < v -> config_step b (with_widget_size v b)
| cs_label b r t :
    config_step b (with_default_label_text t (with_text_label r b))
| cs_paint b cv ls : config_step b (with_canvas cv (with_label_size ls b)).

Definition setter_eq_dec (s t : setter) : {s = t} + {s <> t}.
Proof. decide equality. Defined.

(** Whether a call assigns to the [label] property. *)
Definition is_label_assignment (c : call) : bool :=
  match c with
  | Assign LabelAttr _ => true
  | _ => false
  end.

(** ** Stores for the examples *)

(** A rasteriser: every glyph is half as wide as the font is high. *)
Definition glyphs (t : string) (fs : Z) : Z * Z :=
  (Z.of_nat (String.length t) * (fs / 2), fs).

(** The first widget after [value = 50]. *)
Definition drawn_at_50 : World :=
  after (set_value glyphs (PInt 50) fresh) fresh.

(** A store with a second label object whose text is a lone opening
    brace, and the first widget after [label = <that object>]. *)
Definition brace_labels : gmap nat Label :=
  <[1%nat := mkLabel "{" 40 None]> imported_labels.

Definition brace_world : World :=
  after (set_label (PLabel 1) (mkWorld brace_labels (bar fresh) 0)) fresh.

(** Where [value = 1] leaves that widget. *)
Definition brace_world_failed : World :=
  after (set_value glyphs (PInt 1) brace_world) brace_world.

(** A store with two more label objects, and the first widget in it. *)
Definition two_labels : gmap nat Label :=
  <[2%nat := mkLabel "--={}=--" 20 None]>
    (<[1%nat := mkLabel "Loading {}%" 10 None]> imported_labels).

Definition two_label_world : World := mkWorld two_labels (bar fresh) 0.

(** A run on that widget: the first label is assigned and drawn at 50,
    then the second label is assigned, drawn at 30 and refreshed, the
    program overwrites its text, and the value moves to 75; last comes
    one more text refresh. *)
Definition first_calls : list call := [Assign Value (PInt 50); RefreshText].

Definition second_calls : list call :=
  [Assign Value (PInt 30); RefreshText; LabelText 2 "overwritten";
   Assign Value (PInt 75)].

Definition relabel_a : World :=
  after (set_label (PLabel 1) two_label_world) two_label_world.

Definition relabel_b : World :=
  after (run_calls glyphs first_calls relabel_a) relabel_a.

Definition relabel_c : World :=
  after (set_label (PLabel 2) relabel_b) relabel_b.

Definition relabel_d : World :=
  after (run_calls glyphs second_calls relabel_c) relabel_c.

Definition relabel_e : World :=
  after (_refresh_text glyphs relabel_d) relabel_d.

(** Another run on it: the first label is assigned and drawn at 50, the
    same label object is assigned a second time, and the value moves to
    75. *)
Definition again_b : World :=
  after (set_value glyphs (PInt 50) relabel_a) relabel_a.

Definition again_c : World :=
  after (set_label (PLabel 1) again_b) again_b.

Definition again_d : World :=
  after (set_value glyphs (PInt 75) again_c) again_c.

(** ** Getters, and the animation of the example *)

(** The property getters: [thickness], [cap_style], [cap_precision],
    [progress_colour], [background_colour], [max], [min], [value],
    [widget_size] and [label], each returning the attribute behind it. *)
Definition get_property (s : setter) (b : CircularProgressBar) : pyval :=
  match s with
  | Thickness => PInt (_thickness b)
  | CapStyle => PStr (_cap_style b)
  | CapPrecision => PInt (_cap_precision b)
  | ProgressColour => _progress_colour b
  | BackgroundColour => _background_colour b
  | Max => PInt (_max_progress b)
  | Min => PInt (_min_progress b)
  | Value => PInt (_value b)
  | WidgetSize => PInt (_widget_size b)
  | LabelAttr => PLabel (_text_label b)
  end.

(** The body of the loop of [_Example.animate], for one child [bar]:
    [bar.value += 1] while the value is below the maximum, otherwise
    [bar.value = bar.min]. *)
Definition animate_bar (render_size : string -> Z -> Z * Z) : M unit :=
  (b <- self ;;
   if _value b <? _max_progress b then
     set_value render_size (PInt (_value b + 1))
   else
     set_value render_size (PInt (_min_progress b)))%py.





(** The value [animate] gives a child whose value is [v]. *)
Definition next_value (b : CircularProgressBar) : Z :=
  if _value b <? _max_progress b then _value b + 1 else _min_progress b.

(** ** Weakest preconditions *)

(** [wp c Q E U w]: run from [w], [c] returns a value and a store in [Q],
    or raises an exception with a store in [E], or leaves the model and
    [U] holds. *)
Definition wp {A : Type} (c : M A) (Q : A -> World -> Prop)
  (E : exn -> World -> Prop) (U : Prop) (w : World) : Prop :=
  match c w with
  | Ret a w' => Q a w'
  | Raise e w' => E e w'
  | Unmodelled => U
  end.

(** Whether a template has no brace at all. *)
Fixpoint no_braces (s : string) : bool :=
  match s with
  | EmptyString => true
  | String c r =>
      negb (PyStr.is_char c "{") && negb (PyStr.is_char c "}") && no_braces r
  end.

(** [n] ticks of the clock that calls [animate], seen from one child. *)
Fixpoint animate_ticks (render_size : string -> Z -> Z * Z) (n : nat)
  : M unit :=
  match n with
  | O => ret tt
  | S k => (animate_bar render_size ;; animate_ticks render_size k)%py
  end.


(** The first widget after [max = 2]. *)
Definition short_range : World := after (set_max (PInt 2) fresh) fresh.

(** ** Predicates of the properties *)

(** The exceptions of a redraw: from the division by the range, from a
    number too large for a float, and from [format]; unpacking a colour
    raises only where the colour is not iterable. *)
Definition draw_failure (w : World) (e : exn) : Prop :=
  (e = ZeroDivisionError /\ _max_progress (bar w) = _min_progress (bar w)) \/
  e = OverflowError \/ e = ValueError \/ e = IndexError \/
  (e = TypeError /\
   (is_iterable (_background_colour (bar w)) = false \/
    is_iterable (_progress_colour (bar w)) = false)).

(** The sizes are positive and the colours are iterable. *)
Definition well_configured (b : CircularProgressBar) : Prop :=
  0 < _thickness b /\ 0 < _cap_precision b /\ 0 < _widget_size b /\
  is_iterable (_progress_colour b) = true /\
  is_iterable (_background_colour b) = true.

(** * Properties *)

(** ** Frames *)

Section Frames.

Variable R : World -> World -> Prop.
Hypothesis R_refl : forall w, R w w.
Hypothesis R_trans : forall a b c, R a b -> R b c -> R a c.

Lemma respects_ret {A : Type} (a : A) : respects R (ret a).
Proof. intros w w' H. inversion H. apply R_refl. Qed.

Lemma respects_raise {A : Type} (e : exn) : respects R (@raise A e).
Proof. intros w w' H. inversion H. apply R_refl. Qed.

Lemma respects_unmodelled {A : Type} : respects R (@unmodelled A).
Proof. intros w w' H. discriminate H. Qed.

Lemma respects_self : respects R self.
Proof. intros w w' H. inversion H. apply R_refl. Qed.

Lemma respects_label_at (r : nat) : respects R (label_at r).
Proof.
  intros w w'. unfold label_at. destruct (labels w !! r); simpl; intros H.
  - inversion H. apply R_refl.
  - discriminate H.
Qed.

Lemma respects_bind {A B : Type} (c : M A) (k : A -> M B) :
  respects R c -> (forall a, respects R (k a)) -> respects R (bind c k).
Proof.
  intros Hc Hk w w'. unfold bind.
  destruct (c w) as [a w1 | e w1 |] eqn:E; intros H.
  - apply R_trans with w1.
    + apply Hc. rewrite E. reflexivity.
    + apply (Hk a). exact H.
  - apply Hc. rewrite E. exact H.
  - discriminate H.
Qed.

Lemma respects_float_of_int (n : Z) : respects R (float_of_int n).
Proof.
  unfold float_of_int. destruct (Float.binary64 (inject_Z n)).
  - apply respects_ret.
  - apply respects_raise.
Qed.

Lemma respects_float_result (q : Q) : respects R (float_result q).
Proof.
  unfold float_result. destruct (Float.binary64 q).
  - apply respects_ret.
  - apply respects_unmodelled.
Qed.

Lemma respects_truediv (a b : Z) : respects R (truediv a b).
Proof.
  unfold truediv. destruct (b =? 0); [apply respects_raise |].
  destruct (Float.binary64 (inject_Z a / inject_Z b)).
  - apply respects_ret.
  - apply respects_raise.
Qed.

Lemma respects_star (colour : pyval) : respects R (star colour).
Proof.
  unfold star. destruct (unpack colour).
  - apply respects_ret.
  - destruct (is_iterable colour);
      [apply respects_unmodelled | apply respects_raise].
Qed.

(** One step of a frame proof for code that only computes. *)
Ltac compute_step :=
  first
    [ apply respects_bind; [| intros ?]
    | apply respects_ret
    | apply respects_self
    | apply respects_float_of_int
    | apply respects_float_result
    | apply respects_truediv ].

Lemma respects_get_normalised_progress : respects R get_normalised_progress.
Proof. unfold get_normalised_progress, fadd. repeat compute_step. Qed.

Lemma respects_percent_text (p : Q) : respects R (percent_text p).
Proof. unfold percent_text, fmul. repeat compute_step. Qed.

Lemma respects_centre (b : CircularProgressBar) (offset : Q) :
  respects R (centre b offset).
Proof. unfold centre, fadd. repeat compute_step. Qed.

Lemma respects_radius (b : CircularProgressBar) : respects R (radius b).
Proof. unfold radius, fsub. repeat compute_step. Qed.

Lemma respects_corner (b : CircularProgressBar) (extent : Z) (offset : Q) :
  respects R (corner b extent offset).
Proof. unfold corner, fsub, fadd. repeat compute_step. Qed.

Lemma respects_sweep (p : Q) : respects R (sweep p).
Proof. unfold sweep, fmul. repeat compute_step. Qed.

End Frames.

(** ** What drawing changes *)

Lemma paints_only_refl (w : World) : paints_only w w.
Proof.
  split; [reflexivity |].
  exists (canvas (bar w)), (_label_size (bar w)).
  destruct (bar w); reflexivity.
Qed.

Lemma paints_only_trans (a b c : World) :
  paints_only a b -> paints_only b c -> paints_only a c.
Proof.
  intros [Hd1 (cv1 & ls1 & H1)] [Hd2 (cv2 & ls2 & H2)].
  split; [congruence |].
  exists cv2, ls2. rewrite H2, H1. reflexivity.
Qed.

Lemma paints_only_canvas (f : CircularProgressBar -> list instruction) :
  respects paints_only (assign (fun b => with_canvas (f b) b)).
Proof.
  intros w w' H. inversion H; subst; clear H.
  split; [reflexivity |]. simpl.
  exists (f (bar w)), (_label_size (bar w)).
  destruct (bar w); reflexivity.
Qed.

Lemma paints_only_label_size (x : Z * Z) :
  respects paints_only (assign (with_label_size x)).
Proof.
  intros w w' H. inversion H; subst; clear H.
  split; [reflexivity |]. simpl.
  exists (canvas (bar w)), x.
  destruct (bar w); reflexivity.
Qed.

Lemma paints_only_store_label (r : nat) (l : Label) :
  respects paints_only (store_label r l).
Proof.
  intros w w' H. inversion H; subst; clear H.
  destruct (paints_only_refl w) as [Hd He]. split; assumption.
Qed.

Lemma paints_only_Color_call (rgba : list pyval) :
  respects paints_only (Color_call rgba).
Proof.
  unfold Color_call, add. destruct (rgb_or_rgba rgba).
  - apply paints_only_canvas.
  - apply (respects_unmodelled paints_only).
Qed.

(** One step of a frame proof for [paints_only]: close a leaf, or split a
    [bind]. *)
Ltac paint_step :=
  first
    [ apply paints_only_Color_call
    | apply (respects_get_normalised_progress paints_only
               paints_only_refl paints_only_trans)
    | apply (respects_percent_text paints_only
               paints_only_refl paints_only_trans)
    | apply (respects_centre paints_only paints_only_refl paints_only_trans)
    | apply (respects_radius paints_only paints_only_refl paints_only_trans)
    | apply (respects_corner paints_only paints_only_refl paints_only_trans)
    | apply (respects_sweep paints_only paints_only_refl paints_only_trans)
    | apply (respects_star paints_only paints_only_refl)
    | apply (respects_ret paints_only paints_only_refl)
    | apply (respects_raise paints_only paints_only_refl)
    | apply (respects_unmodelled paints_only)
    | apply (respects_self paints_only paints_only_refl)
    | apply (respects_label_at paints_only paints_only_refl)
    | apply paints_only_store_label
    | apply paints_only_label_size
    | apply paints_only_canvas
    | apply (respects_bind paints_only paints_only_trans); [| intros ?] ].

Lemma paints_only_refresh (render_size : string -> Z -> Z * Z) (r : nat) :
  respects paints_only (refresh render_size r).
Proof. unfold refresh. repeat paint_step. Qed.

Lemma paints_only_set_label_text (r : nat) (t : string) :
  respects paints_only (set_label_text r t).
Proof. unfold set_label_text. repeat paint_step. Qed.

Lemma paints_only_refresh_text render_size :
  respects paints_only (_refresh_text render_size).
Proof.
  unfold _refresh_text.
  do 3 (paint_step; [paint_step |]).
  match goal with
  | |- context [PyStr.format ?t ?a] => destruct (PyStr.format t a)
  end; [| paint_step | paint_step].
  do 2 (paint_step; [paint_step |]).
  paint_step; [apply paints_only_refresh |].
  paint_step; [paint_step |].
  match goal with |- context [texture ?l] => destruct (texture l) end;
    paint_step.
Qed.

Lemma paints_only_paint render_size :
  respects paints_only (paint render_size).
Proof.
  unfold paint, add.
  paint_step; [apply (paints_only_canvas (fun _ => [])) |].
  paint_step; [apply paints_only_refresh_text |].
  repeat paint_step.
Qed.

(** Every call to [_draw] that ends inside the model has been counted once
    and has left the configuration alone. *)
Lemma draw_effect render_size (w w' : World) :
  final (_draw render_size w) = Some w' ->
  draw_calls w' = S (draw_calls w) /\
  exists cv ls, bar w' = with_canvas cv (with_label_size ls (bar w)).
Proof.
  unfold _draw, count_draw, bind. intros H.
  apply paints_only_paint in H. destruct H as [Hd He]. simpl in *. auto.
Qed.

(** ** Rules of the weakest precondition *)

Lemma wp_bind {A B : Type} (c : M A) (k : A -> M B) Q E U (w : World) :
  wp (bind c k) Q E U w = wp c (fun a w' => wp (k a) Q E U w') E U w.
Proof. unfold wp, bind. destruct (c w); reflexivity. Qed.

Lemma wp_ret {A : Type} (a : A) Q E U (w : World) :
  wp (ret a) Q E U w = Q a w.
Proof. reflexivity. Qed.

Lemma wp_raise {A : Type} (e : exn) (Q : A -> World -> Prop) E U (w : World) :
  wp (raise e) Q E U w = E e w.
Proof. reflexivity. Qed.

Lemma wp_unmodelled {A : Type} (Q : A -> World -> Prop) E U (w : World) :
  wp unmodelled Q E U w = U.
Proof. reflexivity. Qed.

Lemma wp_self Q E U (w : World) : wp self Q E U w = Q (bar w) w.
Proof. reflexivity. Qed.

Lemma wp_assign (f : CircularProgressBar -> CircularProgressBar) Q E U
  (w : World) :
  wp (assign f) Q E U w = Q tt (mkWorld (labels w) (f (bar w)) (draw_calls w)).
Proof. reflexivity. Qed.

Lemma wp_store_label (r : nat) (l : Label) Q E U (w : World) :
  wp (store_label r l) Q E U w =
  Q tt (mkWorld (<[r := l]> (labels w)) (bar w) (draw_calls w)).
Proof. reflexivity. Qed.

Lemma wp_count_draw Q E U (w : World) :
  wp count_draw Q E U w =
  Q tt (mkWorld (labels w) (bar w) (S (draw_calls w))).
Proof. reflexivity. Qed.

Lemma wp_label_at (r : nat) Q E U (w : World) :
  wp (label_at r) Q E U w =
  match labels w !! r with
  | Some l => Q l w
  | None => U
  end.
Proof. unfold wp, label_at. destruct (labels w !! r); reflexivity. Qed.

Lemma wp_float_of_int (n : Z) Q E U (w : World) :
  wp (float_of_int n) Q E U w =
  match Float.binary64 (inject_Z n) with
  | Some x => Q x w
  | None => E OverflowError w
  end.
Proof.
  unfold wp, float_of_int. destruct (Float.binary64 (inject_Z n)); reflexivity.
Qed.

Lemma wp_float_result (q : Q) Qr E U (w : World) :
  wp (float_result q) Qr E U w =
  match Float.binary64 q with
  | Some x => Qr x w
  | None => U
  end.
Proof. unfold wp, float_result. destruct (Float.binary64 q); reflexivity. Qed.

Lemma wp_truediv (a b : Z) Q E U (w : World) :
  wp (truediv a b) Q E U w =
  if b =? 0 then E ZeroDivisionError w
  else match Float.binary64 (inject_Z a / inject_Z b) with
       | Some x => Q x w
       | None => E OverflowError w
       end.
Proof.
  unfold wp, truediv. destruct (b =? 0); [reflexivity |].
  destruct (Float.binary64 (inject_Z a / inject_Z b)); reflexivity.
Qed.

Lemma wp_star (colour : pyval) Q E U (w : World) :
  wp (star colour) Q E U w =
  match unpack colour with
  | Some items => Q items w
  | None => if is_iterable colour then U else E TypeError w
  end.
Proof.
  unfold wp, star. destruct (unpack colour); [reflexivity |].
  destruct (is_iterable colour); reflexivity.
Qed.

Lemma wp_Color_call (rgba : list pyval) Q E U (w : World) :
  wp (Color_call rgba) Q E U w =
  if rgb_or_rgba rgba
  then Q tt (mkWorld (labels w)
               (with_canvas (canvas (bar w) ++ [Color rgba]) (bar w))
               (draw_calls w))
  else U.
Proof. unfold wp, Color_call. destruct (rgb_or_rgba rgba); reflexivity. Qed.

(** The call [Color(1, 1, 1, 1)]. *)
Lemma Color_call_white :
  Color_call [PInt 1; PInt 1; PInt 1; PInt 1] =
  add (Color [PInt 1; PInt 1; PInt 1; PInt 1]).
Proof. reflexivity. Qed.

(** Reading a verdict off a weakest precondition. *)
Lemma wp_returns {A : Type} (c : M A) Q E U (w : World) (a : A) (w' : World) :
  wp c Q E U w -> c w = Ret a w' -> Q a w'.
Proof. unfold wp. intros H Hc. rewrite Hc in H. exact H. Qed.

Lemma wp_raises {A : Type} (c : M A) Q E U (w : World) (e : exn) (w' : World) :
  wp c Q E U w -> c w = Raise e w' -> E e w'.
Proof. unfold wp. intros H Hc. rewrite Hc in H. exact H. Qed.

Lemma wp_weaken {A : Type} (c : M A) (Q Q' : A -> World -> Prop)
  (E E' : exn -> World -> Prop) (U U' : Prop) (w : World) :
  (forall a w', Q a w' -> Q' a w') ->
  (forall e w', E e w' -> E' e w') ->
  (U -> U') ->
  wp c Q E U w -> wp c Q' E' U' w.
Proof. unfold wp. intros HQ HE HU. destruct (c w); auto. Qed.

(** From the weakest precondition of a result to the run. *)
Lemma wp_result {A : Type} (c : M A) (r : result A) (w : World) :
  wp c (fun a w' => Ret a w' = r) (fun e w' => Raise e w' = r)
    (Unmodelled = r) w ->
  c w = r.
Proof. unfold wp. destruct (c w); auto. Qed.

(** One step of symbolic execution. *)
Ltac wp_step :=
  first
    [ rewrite wp_bind
    | rewrite wp_ret
    | rewrite wp_raise
    | rewrite wp_unmodelled
    | rewrite wp_self
    | rewrite wp_assign
    | rewrite wp_store_label
    | rewrite wp_count_draw
    | rewrite wp_label_at
    | rewrite wp_float_of_int
    | rewrite wp_float_result
    | rewrite wp_truediv
    | rewrite wp_star
    | rewrite wp_Color_call ].

(** Splitting on the next test of a run. *)
Ltac wp_case :=
  match goal with
  | |- context [match unpack ?c with _ => _ end] => destruct (unpack c) eqn:?
  | |- context [if ?b then _ else _] => destruct b eqn:?
  | |- context [match Float.binary64 ?q with _ => _ end] =>
      destruct (Float.binary64 q) eqn:?
  | |- context [match PyStr.format ?t ?a with _ => _ end] =>
      destruct (PyStr.format t a) eqn:?
  | |- context [match texture ?l with _ => _ end] => destruct (texture l) eqn:?
  | |- context [match ?m !! ?r with _ => _ end] => destruct (m !! r) eqn:?
  end.

(** Symbolic execution to the end of a run. *)
Ltac wp_run :=
  repeat (first
    [ wp_step
    | progress cbn [bar labels draw_calls with_canvas with_value
        with_label_size _thickness _cap_style _cap_precision _progress_colour
        _background_colour _max_progress _min_progress _widget_size
        _text_label _value _default_label_text _label_size pos canvas stored]
    | wp_case ]).

(** Unfolding a redraw down to the steps the rules cover. *)
Ltac unfold_draw :=
  unfold _draw, paint, _refresh_text, refresh;
  rewrite Color_call_white;
  unfold get_normalised_progress, percent_text, centre, radius, corner,
    sweep, add, fadd, fsub, fmul.

(** ** The value setter *)

(** The three branches of the value setter on an [int]. *)
Lemma set_value_int render_size (v : Z) (w : World) :
  set_value render_size (PInt v) w =
  if (_min_progress (bar w) >? v) && (v >? _max_progress (bar w))
  then Raise ValueError w
  else if negb (v =? _value (bar w))
       then _draw render_size (stored v w)
       else Ret tt w.
Proof.
  unfold set_value, bind, self, raise, ret, assign, stored. simpl.
  destruct ((_min_progress (bar w) >? v) && (v >? _max_progress (bar w)));
    [reflexivity |].
  destruct (negb (v =? _value (bar w))); reflexivity.
Qed.

(** Wherever the bounds are in order, the bounds test of the value setter
    is false for every [int]. *)
Lemma bounds_test_dead (lo hi v : Z) :
  lo <= hi -> (lo >? v) && (v >? hi) = false.
Proof.
  intros H. rewrite !Z.gtb_ltb.
  destruct (v <? lo) eqn:E1; [| reflexivity].
  destruct (hi <? v) eqn:E2; [| reflexivity].
  apply Z.ltb_lt in E1, E2. lia.
Qed.

(** Where a call to the value setter can end: in the store it started in,
    or wherever the redraw of the newly stored value ends. *)
Lemma set_value_final render_size (value : pyval) (w w' : World) :
  final (set_value render_size value w) = Some w' ->
  w' = w \/
  exists v, value = PInt v /\ v <> _value (bar w) /\
            final (_draw render_size (stored v w)) = Some w'.
Proof.
  destruct value; try (simpl; intros H; inversion H; auto; fail).
  rewrite set_value_int.
  destruct ((_min_progress (bar w) >? n) && (n >? _max_progress (bar w))).
  - simpl. intros H. inversion H. auto.
  - destruct (n =? _value (bar w)) eqn:E; simpl.
    + intros H. inversion H. auto.
    + intros H. right. exists n. apply Z.eqb_neq in E. auto.
Qed.

(** C4: for every integer [m] that does not exceed the current maximum,
    [set_min(m)] succeeds and stores [m] both as the minimum and as the
    value, whatever the value was before; nothing else changes. *)
Theorem set_min_resets_value (w : World) (m : Z) :
  m <= _max_progress (bar w) ->
  exists w',
    set_min (PInt m) w = Ret tt w' /\
    _min_progress (bar w') = m /\
    _value (bar w') = m /\
    w' = mkWorld (labels w) (with_value m (with_min_progress m (bar w)))
           (draw_calls w).
Proof.
  intros H. eexists. split; [| split; [| split]]; [| | | reflexivity].
  - unfold set_min, bind, self, assign, raise. simpl.
    destruct (m >? _max_progress (bar w)) eqn:E; [| reflexivity].
    rewrite Z.gtb_ltb in E. apply Z.ltb_lt in E. lia.
  - reflexivity.
  - reflexivity.
Qed.

Lemma set_min_resets_value_witness :
  20 <= _max_progress (bar (stored 50 fresh)) /\
  exists w',
    set_min (PInt 20) (stored 50 fresh) = Ret tt w' /\
    _min_progress (bar w') = 20 /\
    _value (bar w') = 20 /\
    w' = mkWorld (labels (stored 50 fresh))
           (with_value 20 (with_min_progress 20 (bar (stored 50 fresh))))
           (draw_calls (stored 50 fresh)).
Proof.
  split.
  - vm_compute. discriminate.
  - apply (set_min_resets_value (stored 50 fresh) 20).
    vm_compute. discriminate.
Defined.

(** C8: on an [int] [v], [set_max] raises [ValueError] exactly when [v] is
    at most the current minimum and [set_min] raises [ValueError] exactly
    when [v] is above the current maximum, both without touching the
    store, and they return otherwise; on anything that is not an [int]
    both raise [TypeError]. *)
Theorem bound_setters_reject_exactly (w : World) :
  (forall v : Z,
      (set_max (PInt v) w = Raise ValueError w <-> v <= _min_progress (bar w)) /\
      ((exists w', set_max (PInt v) w = Ret tt w') <->
       ~ v <= _min_progress (bar w))) /\
  (forall v : Z,
      (set_min (PInt v) w = Raise ValueError w <-> v > _max_progress (bar w)) /\
      ((exists w', set_min (PInt v) w = Ret tt w') <->
       ~ v > _max_progress (bar w))) /\
  (forall value : pyval,
      as_int value = None ->
      set_max value w = Raise TypeError w /\
      set_min value w = Raise TypeError w).
Proof.
  split; [| split].
  - intros v. unfold set_max, bind, self, assign, raise. simpl.
    destruct (v <=? _min_progress (bar w)) eqn:E.
    + apply Z.leb_le in E. repeat split; intros H; try lia; auto.
      destruct H as [w' H]. discriminate H.
    + apply Z.leb_gt in E. repeat split; intros H; try lia; eauto.
      discriminate H.
  - intros v. unfold set_min, bind, self, assign, raise. simpl.
    rewrite Z.gtb_ltb.
    destruct (_max_progress (bar w) <? v) eqn:E.
    + apply Z.ltb_lt in E. repeat split; intros H; try lia; auto.
      destruct H as [w' H]. discriminate H.
    + apply Z.ltb_ge in E. repeat split; intros H; try lia; eauto.
      discriminate H.
  - intros value H. unfold set_max, set_min. rewrite H. split; reflexivity.
Qed.

(** C5: [set_value(v)] with [v] equal to the stored value leaves the
    whole store, canvas and redraw counter included, exactly as it was.
    For an [int] [v] that passes the bounds test of the setter: with [v]
    equal to the stored value the setter returns at once; with [v]
    different from the stored value it stores [v] and calls [_draw]; so
    the redraw counter moves, by one, exactly when [v] differs from the
    stored value. *)
Theorem set_value_redraws_exactly_on_change
  render_size (w : World) (v : Z) :
  final (set_value render_size (PInt (_value (bar w))) w) = Some w /\
  ((_min_progress (bar w) >? v) && (v >? _max_progress (bar w)) = false ->
   (v = _value (bar w) -> set_value render_size (PInt v) w = Ret tt w) /\
   (v <> _value (bar w) ->
    set_value render_size (PInt v) w = _draw render_size (stored v w)) /\
   (forall w',
       final (set_value render_size (PInt v) w) = Some w' ->
       (draw_calls w' = S (draw_calls w) <-> v <> _value (bar w)) /\
       (draw_calls w' = draw_calls w <-> v = _value (bar w)))).
Proof.
  split.
  - rewrite set_value_int, Z.eqb_refl. simpl.
    destruct ((_min_progress (bar w) >? _value (bar w)) &&
              (_value (bar w) >? _max_progress (bar w))); reflexivity.
  - intros Hok. rewrite set_value_int, Hok.
    destruct (Z.eq_dec v (_value (bar w))) as [E | E].
    + assert (Eb : (v =? _value (bar w)) = true) by (apply Z.eqb_eq; exact E).
      rewrite Eb. simpl.
      split; [reflexivity |]. split; [intros H; contradiction |].
      intros w' H. inversion H; subst w'. split; split; intros; auto; lia.
    + assert (Eb : (v =? _value (bar w)) = false) by (apply Z.eqb_neq; exact E).
      rewrite Eb. simpl.
      split; [intros H; contradiction |]. split; [reflexivity |].
      intros w' H. apply draw_effect in H. destruct H as [H _]. simpl in H.
      split; split; intros; auto; try lia; contradiction.
Qed.

Lemma set_value_redraws_exactly_on_change_witness :
  (_min_progress (bar drawn_at_50) >? 50) &&
  (50 >? _max_progress (bar drawn_at_50)) = false /\
  set_value glyphs (PInt 50) drawn_at_50 = Ret tt drawn_at_50 /\
  forall w',
    final (set_value glyphs (PInt 50) drawn_at_50) = Some w' ->
    draw_calls w' = draw_calls drawn_at_50.
Proof.
  assert (Hok : (_min_progress (bar drawn_at_50) >? 50) &&
                (50 >? _max_progress (bar drawn_at_50)) = false)
    by (vm_compute; reflexivity).
  destruct (set_value_redraws_exactly_on_change glyphs drawn_at_50 50)
    as [_ Hacc].
  destruct (Hacc Hok) as (Hsame & _ & Hcount).
  split; [exact Hok |]. split.
  - apply Hsame. vm_compute. reflexivity.
  - intros w' H. apply (Hcount w' H). vm_compute. reflexivity.
Defined.

(** ** Setters that never draw *)

(** Every setter but the value setter leaves the label objects, the canvas,
    the label size and the redraw counter alone, whether it returns or
    raises. *)
Lemma plain_setter_keeps_drawing
  render_size (s : setter) (value : pyval) (w w' : World) :
  s <> Value ->
  final (call_setter render_size s value w) = Some w' ->
  labels w' = labels w /\
  draw_calls w' = draw_calls w /\
  canvas (bar w') = canvas (bar w) /\
  _label_size (bar w') = _label_size (bar w).
Proof.
  intros Hs.
  destruct s; try contradiction; simpl;
    unfold set_thickness, set_cap_style, set_cap_precision,
      set_progress_colour, set_background_colour, set_max, set_min,
      set_widget_size, set_label, bind, self, assign, raise, label_at;
    simpl.
  all: destruct value; simpl;
    repeat match goal with
      | |- context [if ?c then _ else _] => destruct c; simpl
      | |- context [match labels ?m !! ?r with _ => _ end] =>
          destruct (labels m !! r); simpl
      end;
    intros H; inversion H; subst; simpl; auto.
Qed.

(** C10: a successful [set_min(m)] stores [m] as the value while the
    redraw counter, the canvas, the label size and the label objects stay
    as they were, so what is drawn is still what the last redraw drew; and
    no setter other than the value setter ever calls [_draw]. *)
Theorem set_min_changes_value_without_redraw render_size (w : World) :
  (forall m w',
      set_min (PInt m) w = Ret tt w' ->
      _value (bar w') = m /\
      draw_calls w' = draw_calls w /\
      canvas (bar w') = canvas (bar w) /\
      _label_size (bar w') = _label_size (bar w) /\
      labels w' = labels w) /\
  (forall s value w',
      s <> Value ->
      final (call_setter render_size s value w) = Some w' ->
      draw_calls w' = draw_calls w /\
      canvas (bar w') = canvas (bar w) /\
      labels w' = labels w).
Proof.
  split.
  - intros m w'. unfold set_min, bind, self, assign, raise. simpl.
    destruct (m >? _max_progress (bar w)); intros H; inversion H; subst.
    simpl. auto.
  - intros s value w' Hs H.
    destruct (plain_setter_keeps_drawing render_size s value w w' Hs H)
      as (Hl & Hd & Hc & _).
    auto.
Qed.

Lemma set_min_changes_value_without_redraw_witness :
  exists w',
    set_min (PInt 20) drawn_at_50 = Ret tt w' /\
    _value (bar w') = 20 /\
    draw_calls w' = draw_calls drawn_at_50 /\
    canvas (bar w') = canvas (bar drawn_at_50) /\
    _label_size (bar w') = _label_size (bar drawn_at_50) /\
    labels w' = labels drawn_at_50.
Proof.
  destruct (set_min_changes_value_without_redraw glyphs drawn_at_50)
    as [Hmin _].
  eexists. split; [vm_compute; reflexivity |].
  apply (Hmin 20). vm_compute. reflexivity.
Defined.

(** What is on the canvas and in the label after [value = 50] and
    [min = 20]: still the half circle and ["50%"]. *)
Example stale_drawing_after_set_min :
  let w := after (set_min (PInt 20) drawn_at_50) drawn_at_50 in
  _value (bar w) = 20 /\
  _min_progress (bar w) = 20 /\
  text <$> (labels w !! _DEFAULT_TEXT_LABEL) = Some "50%" /\
  nth_error (canvas (bar w)) 3 =
    Some (Line [100; 100; 90; 0; 180]%Q 10 (Some ("round", 10))).
Proof. vm_compute. auto. Qed.

(** ** Invariants of the reachable stores *)

Lemma run_call_config_step render_size (c : call) (w w' : World) :
  final (run_call render_size c w) = Some w' ->
  config_step (bar w) (bar w').
Proof.
  destruct c as [s value | | | r t]; simpl.
  - destruct s; simpl.
    + unfold set_thickness, assign, raise.
      destruct (as_int value) as [v |]; simpl.
      * destruct (v <=? 0) eqn:E; intros H; inversion H; subst; simpl;
          [apply cs_same | apply cs_thickness; apply Z.leb_gt in E; lia].
      * intros H; inversion H; apply cs_same.
    + unfold set_cap_style, assign, raise.
      destruct value; simpl; try (intros H; inversion H; apply cs_same).
      destruct (bool_decide (PyStr.strip (PyStr.lower s) ∈ _ACCEPTED_BAR_CAPS))
        eqn:E; simpl; intros H; inversion H; subst; simpl.
      * apply cs_cap_style. apply bool_decide_eq_true in E. exact E.
      * apply cs_same.
    + unfold set_cap_precision, assign, raise.
      destruct (as_int value) as [v |]; simpl.
      * destruct (v <=? 0) eqn:E; intros H; inversion H; subst; simpl;
          [apply cs_same | apply cs_cap_precision; apply Z.leb_gt in E; lia].
      * intros H; inversion H; apply cs_same.
    + unfold set_progress_colour, assign, raise.
      destruct (is_iterable value) eqn:E; simpl; intros H; inversion H;
        subst; simpl; [apply cs_progress_colour; exact E | apply cs_same].
    + unfold set_background_colour, assign, raise.
      destruct (is_iterable value) eqn:E; simpl; intros H; inversion H;
        subst; simpl; [apply cs_background_colour; exact E | apply cs_same].
    + unfold set_max, bind, self, assign, raise.
      destruct (as_int value) as [v |]; simpl.
      * destruct (v <=? _min_progress (bar w)) eqn:E; intros H; inversion H;
          subst; simpl;
          [apply cs_same | apply cs_max; apply Z.leb_gt in E; lia].
      * intros H; inversion H; apply cs_same.
    + unfold set_min, bind, self, assign, raise.
      destruct (as_int value) as [v |]; simpl.
      * rewrite Z.gtb_ltb.
        destruct (_max_progress (bar w) <? v) eqn:E; intros H; inversion H;
          subst; simpl;
          [apply cs_same | apply cs_min; apply Z.ltb_ge in E; lia].
      * intros H; inversion H; apply cs_same.
    + intros H. apply set_value_final in H.
      destruct H as [-> | (v & _ & _ & H)]; [apply cs_same |].
      apply draw_effect in H. destruct H as (_ & cv & ls & ->).
      apply cs_value.
    + unfold set_widget_size, assign, raise.
      destruct (as_int value) as [v |]; simpl.
      * destruct (v <=? 0) eqn:E; intros H; inversion H; subst; simpl;
          [apply cs_same | apply cs_widget_size; apply Z.leb_gt in E; lia].
      * intros H; inversion H; apply cs_same.
    + unfold set_label, bind, assign, raise, label_at.
      destruct value; simpl; try (intros H; inversion H; apply cs_same).
      destruct (labels w !! ref); simpl; intros H; inversion H; subst; simpl.
      apply cs_label.
  - intros H. apply paints_only_refresh_text in H.
    destruct H as (_ & cv & ls & ->). apply cs_paint.
  - intros H. apply draw_effect in H.
    destruct H as (_ & cv & ls & ->). apply cs_paint.
  - intros H. apply paints_only_set_label_text in H.
    destruct H as (_ & cv & ls & ->). apply cs_paint.
Qed.

(** The stored cap style of a reachable store is one of the three caps. *)
Lemma reachable_cap_style render_size (w : World) :
  reachable render_size w -> _cap_style (bar w) ∈ _ACCEPTED_BAR_CAPS.
Proof.
  induction 1 as [p w0 w Hinit | c w w' Hr IH Hc].
  - unfold __init__, bind, label_at, assign in Hinit.
    destruct (labels w0 !! _DEFAULT_TEXT_LABEL); inversion Hinit; subst.
    simpl. unfold _ACCEPTED_BAR_CAPS, _DEFAULT_CAP_STYLE. set_solver.
  - apply run_call_config_step in Hc.
    inversion Hc; subst; destruct (bar w); simpl in *; assumption.
Qed.

(** The bounds of a reachable store are in order (not necessarily
    apart). *)
Lemma reachable_bounds_ordered render_size (w : World) :
  reachable render_size w ->
  _min_progress (bar w) <= _max_progress (bar w).
Proof.
  induction 1 as [p w0 w Hinit | c w w' Hr IH Hc].
  - unfold __init__, bind, label_at, assign in Hinit.
    destruct (labels w0 !! _DEFAULT_TEXT_LABEL); inversion Hinit; subst.
    simpl. unfold _DEFAULT_MIN_PROGRESS, _DEFAULT_MAX_PROGRESS. lia.
  - apply run_call_config_step in Hc.
    inversion Hc; subst; destruct (bar w); simpl in *; lia.
Qed.

(** ** Rounding inside the unit interval *)

Lemma round_half_even_nonneg (a b : Z) :
  0 <= a -> 0 < b -> 0 <= Float.round_half_even a b.
Proof.
  intros Ha Hb. unfold Float.round_half_even.
  pose proof (Z.div_pos a b Ha Hb) as Hk.
  destruct (2 * (a mod b) <? b); [exact Hk |].
  destruct (b <? 2 * (a mod b)); [lia |].
  destruct (Z.even (a / b)); lia.
Qed.

(** Rounding a quotient that is at most the integer [N] gives at most
    [N]. *)
Lemma round_half_even_le (a b N : Z) :
  0 <= a -> 0 < b -> a <= N * b -> Float.round_half_even a b <= N.
Proof.
  intros Ha Hb Hle. unfold Float.round_half_even.
  pose proof (Z.div_mod a b ltac:(lia)) as Hdm.
  pose proof (Z.mod_pos_bound a b Hb) as Hr.
  assert (Hk : a / b <= N) by nia.
  destruct (2 * (a mod b) <? b) eqn:E1; [exact Hk |].
  apply Z.ltb_ge in E1.
  assert (Hlt : a / b < N) by nia.
  destruct (b <? 2 * (a mod b)); [lia |].
  destruct (Z.even (a / b)); lia.
Qed.

Lemma exponent_nonpos (n d : Z) :
  0 < n -> n <= d -> Float.exponent n d <= 0.
Proof.
  intros Hn Hd. unfold Float.exponent.
  pose proof (Z.log2_le_mono n d Hd) as Hl.
  destruct (Float.below_pow2 n d (Z.log2 n - Z.log2 d)); lia.
Qed.

Lemma round_pos_unit (n d : Z) :
  0 < n -> n <= d ->
  exists r : Q, Float.round_pos n d = Some r /\ (0 <= r <= 1)%Q.
Proof.
  intros Hn Hd. unfold Float.round_pos.
  pose proof (exponent_nonpos n d Hn Hd) as He.
  set (u := Z.max (Float.exponent n d - 52) (- 1074)).
  assert (Hu : u < 0) by (unfold u; lia).
  destruct (0 <=? u) eqn:E; [apply Z.leb_le in E; lia |].
  eexists. split; [reflexivity |].
  assert (Hp : 0 < 2 ^ (- u)) by (apply Z.pow_pos_nonneg; lia).
  set (m := Float.round_half_even (n * 2 ^ (- u)) d).
  assert (Hm0 : 0 <= m)
    by (apply round_half_even_nonneg; nia).
  assert (Hm1 : m <= 2 ^ (- u))
    by (apply round_half_even_le; nia).
  rewrite Qred_correct. unfold Qle. simpl.
  rewrite Z2Pos.id by exact Hp. lia.
Qed.

(** A rational of the unit interval rounds to a float of the unit
    interval. *)
Lemma binary64_unit (q : Q) :
  (0 <= q <= 1)%Q ->
  exists r : Q, Float.binary64 q = Some r /\ (0 <= r <= 1)%Q.
Proof.
  intros Hq. rewrite <- (Qred_correct q) in Hq.
  unfold Float.binary64.
  destruct (Qred q) as [n d]. unfold Qle in Hq. simpl in *.
  destruct n as [| n | n].
  - exists 0%Q. split; [reflexivity |]. split; discriminate.
  - apply round_pos_unit; lia.
  - lia.
Qed.

Lemma binary64_of_0 (q : Q) : q == 0 -> Float.binary64 q = Some 0%Q.
Proof.
  intros H. apply Qred_complete in H. unfold Float.binary64. rewrite H.
  reflexivity.
Qed.

Lemma binary64_of_1 (q : Q) : q == 1 -> Float.binary64 q = Some 1%Q.
Proof.
  intros H. apply Qred_complete in H. unfold Float.binary64. rewrite H.
  vm_compute. reflexivity.
Qed.

(** ** Normalised progress *)

(** The exact quotient behind the normalised progress lies in the unit
    interval when the value lies between the bounds. *)
Lemma quotient_unit (lo hi v : Z) :
  lo < hi -> lo <= v <= hi ->
  (0 <= inject_Z ((v - lo) * (_NORMALISED_MAX - _NORMALISED_MIN)) /
        inject_Z (hi - lo) <= 1)%Q.
Proof.
  intros Hlt Hv.
  assert (Hd : (0 < inject_Z (hi - lo))%Q).
  { replace 0%Q with (inject_Z 0) by reflexivity. rewrite <- Zlt_Qlt. lia. }
  split.
  - apply Qle_shift_div_l; [exact Hd |].
    rewrite Qmult_0_l. replace 0%Q with (inject_Z 0) by reflexivity.
    rewrite <- Zle_Qle. unfold _NORMALISED_MAX, _NORMALISED_MIN. lia.
  - apply Qle_shift_div_r; [exact Hd |].
    rewrite Qmult_1_l. rewrite <- Zle_Qle.
    unfold _NORMALISED_MAX, _NORMALISED_MIN. lia.
Qed.

(** C3: in every store whose minimum is below its maximum and whose
    value lies between the two, [get_normalised_progress] returns,
    without changing the store, a float between 0 and 1; the float is 0
    when the value is the minimum and 1 when it is the maximum. *)
Theorem normalised_progress_in_unit_interval (w : World) :
  _min_progress (bar w) < _max_progress (bar w) ->
  _min_progress (bar w) <= _value (bar w) <= _max_progress (bar w) ->
  exists p : Q,
    get_normalised_progress w = Ret p w /\
    (0 <= p <= 1)%Q /\
    (_value (bar w) = _min_progress (bar w) -> p = 0%Q) /\
    (_value (bar w) = _max_progress (bar w) -> p = 1%Q).
Proof.
  intros Hlt Hv.
  set (num := (_value (bar w) - _min_progress (bar w)) *
              (_NORMALISED_MAX - _NORMALISED_MIN)).
  set (den := _max_progress (bar w) - _min_progress (bar w)).
  pose proof (quotient_unit _ _ _ Hlt Hv) as Hq. fold num den in Hq.
  destruct (binary64_unit _ Hq) as (q & Eq & Hq1).
  assert (Hsum : (0 <= 0 + q <= 1)%Q) by (rewrite Qplus_0_l; exact Hq1).
  destruct (binary64_unit _ Hsum) as (p & Ep & Hp).
  assert (Hrun : get_normalised_progress w = Ret p w).
  { unfold get_normalised_progress, bind, self, truediv. fold num den.
    destruct (den =? 0) eqn:E; [apply Z.eqb_eq in E; unfold den in E; lia |].
    rewrite Eq. unfold ret, float_of_int.
    change (Float.binary64 (inject_Z _NORMALISED_MIN)) with (Some 0%Q).
    cbv beta iota delta [ret fadd float_result]. rewrite Ep. reflexivity. }
  exists p. split; [exact Hrun |]. split; [exact Hp |]. split.
  - intros Hmin.
    assert (Hz : Float.binary64 (inject_Z num / inject_Z den) = Some 0%Q).
    { apply binary64_of_0. unfold num. rewrite Hmin, Z.sub_diag. reflexivity. }
    rewrite Hz in Eq. inversion Eq; subst q.
    rewrite binary64_of_0 in Ep by reflexivity.
    inversion Ep. reflexivity.
  - intros Hmax.
    assert (Hz : Float.binary64 (inject_Z num / inject_Z den) = Some 1%Q).
    { apply binary64_of_1. unfold num, den. rewrite Hmax.
      unfold _NORMALISED_MAX, _NORMALISED_MIN.
      rewrite Z.sub_0_r, Z.mul_1_r. apply Qmult_inv_r.
      intros H0. replace 0%Q with (inject_Z 0) in H0 by reflexivity.
      apply (proj1 (inject_Z_injective _ _)) in H0. lia. }
    rewrite Hz in Eq. inversion Eq; subst q.
    rewrite binary64_of_1 in Ep by reflexivity.
    inversion Ep. reflexivity.
Qed.

Lemma normalised_progress_in_unit_interval_witness :
  (_min_progress (bar drawn_at_50) < _max_progress (bar drawn_at_50)) /\
  (_min_progress (bar drawn_at_50) <= _value (bar drawn_at_50)
   <= _max_progress (bar drawn_at_50)) /\
  exists p : Q,
    get_normalised_progress drawn_at_50 = Ret p drawn_at_50 /\
    (0 <= p <= 1)%Q /\
    (_value (bar drawn_at_50) = _min_progress (bar drawn_at_50) -> p = 0%Q) /\
    (_value (bar drawn_at_50) = _max_progress (bar drawn_at_50) -> p = 1%Q).
Proof.
  assert (Hlt : _min_progress (bar drawn_at_50) < _max_progress (bar drawn_at_50))
    by (vm_compute; reflexivity).
  assert (Hv : _min_progress (bar drawn_at_50) <= _value (bar drawn_at_50)
               <= _max_progress (bar drawn_at_50))
    by (split; vm_compute; discriminate).
  split; [exact Hlt |]. split; [exact Hv |].
  apply (normalised_progress_in_unit_interval drawn_at_50 Hlt Hv).
Defined.

(** The normalised progress of the first widget at 0, 50 and 100. *)
Example normalised_progress_values :
  get_normalised_progress fresh = Ret 0%Q fresh /\
  get_normalised_progress (stored 50 fresh) = Ret (1 # 2)%Q (stored 50 fresh) /\
  get_normalised_progress (stored 100 fresh) = Ret 1%Q (stored 100 fresh).
Proof. repeat split; vm_compute; reflexivity. Qed.

(** ** The cap style setter *)

(** *** What [strip] and [lower] do *)

Lemma lower_app (a b : string) :
  PyStr.lower (a ++ b) = PyStr.lower a ++ PyStr.lower b.
Proof.
  induction a as [| c a IH]; [reflexivity |].
  change (String c a ++ b) with (String c (a ++ b)).
  cbn [PyStr.lower]. rewrite IH. reflexivity.
Qed.

(** White space has no lower case of its own. *)
Lemma lower_char_space (c : ascii) :
  PyStr.is_space c = true -> PyStr.lower_char c = c.
Proof.
  destruct c as [[] [] [] [] [] [] [] []]; vm_compute;
    first [reflexivity | discriminate].
Qed.

Lemma lower_blank (a : string) :
  blank a = true -> PyStr.lower a = a.
Proof.
  induction a as [| c a IH]; [reflexivity |].
  cbn [blank PyStr.lower]. intros H. apply andb_prop in H. destruct H as [Hc Ha].
  rewrite (lower_char_space c Hc), (IH Ha). reflexivity.
Qed.

Lemma lstrip_blank (a : string) : blank a = true -> PyStr.lstrip a = "".
Proof.
  induction a as [| c a IH]; [reflexivity |].
  cbn [blank PyStr.lstrip]. intros H. apply andb_prop in H. destruct H as [Hc Ha].
  rewrite Hc. exact (IH Ha).
Qed.

Lemma rstrip_blank (a : string) : blank a = true -> PyStr.rstrip a = "".
Proof.
  induction a as [| c a IH]; [reflexivity |].
  cbn [blank PyStr.rstrip]. intros H. apply andb_prop in H. destruct H as [Hc Ha].
  rewrite (IH Ha), Hc. reflexivity.
Qed.

Lemma lstrip_app_blank (a s : string) :
  blank a = true -> PyStr.lstrip (a ++ s) = PyStr.lstrip s.
Proof.
  induction a as [| c a IH]; [reflexivity |].
  change (String c a ++ s) with (String c (a ++ s)).
  cbn [blank PyStr.lstrip]. intros H. apply andb_prop in H. destruct H as [Hc Ha].
  rewrite Hc. exact (IH Ha).
Qed.

Lemma rstrip_app_blank (s b : string) :
  blank b = true -> PyStr.rstrip (s ++ b) = PyStr.rstrip s.
Proof.
  intros Hb. induction s as [| c s IH].
  - change ("" ++ b) with b. rewrite (rstrip_blank b Hb). reflexivity.
  - change (String c s ++ b) with (String c (s ++ b)).
    cbn [PyStr.rstrip]. rewrite IH. reflexivity.
Qed.

(** White space around a string does not reach its stripped form. *)
Lemma strip_padded (a s b : string) :
  blank a = true -> blank b = true ->
  PyStr.strip (a ++ s ++ b) = PyStr.strip s.
Proof.
  intros Ha Hb. unfold PyStr.strip. rewrite (lstrip_app_blank a _ Ha).
  induction s as [| c s IH].
  - change ("" ++ b) with b. rewrite (lstrip_blank b Hb). reflexivity.
  - change (String c s ++ b) with (String c (s ++ b)).
    cbn [PyStr.lstrip]. destruct (PyStr.is_space c); [exact IH |].
    change (String c (s ++ b)) with (String c s ++ b).
    apply rstrip_app_blank. exact Hb.
Qed.

(** C7: [set_cap_style] tests membership on the lowercased, stripped
    string and stores that string: with ["RouND"] it returns and the
    stored cap style is ["round"], with ["oval"] it raises [ValueError]
    and stores nothing; and in every store a program can reach the cap
    style is one of ["round"], ["none"], ["square"].  The stripping is
    of the white space at both ends and of nothing else: white space
    around the argument changes nothing in what the setter does (so
    ["  SqUArE "], and ["NONE"] between a tab and a line end, are
    accepted and stored as ["square"] and ["none"]), while white space
    inside the word is kept and rejected. *)
Theorem cap_style_normalised_and_checked render_size (w : World) :
  (forall s : string,
      set_cap_style (PStr s) w =
      if bool_decide (PyStr.strip (PyStr.lower s) ∈ _ACCEPTED_BAR_CAPS)
      then Ret tt (mkWorld (labels w)
                     (with_cap_style (PyStr.strip (PyStr.lower s)) (bar w))
                     (draw_calls w))
      else Raise ValueError w) /\
  (exists w', set_cap_style (PStr "RouND") w = Ret tt w' /\
              _cap_style (bar w') = "round") /\
  set_cap_style (PStr "oval") w = Raise ValueError w /\
  (reachable render_size w ->
   _cap_style (bar w) = "round" \/ _cap_style (bar w) = "none" \/
   _cap_style (bar w) = "square") /\
  (forall a s b : string,
      blank a = true -> blank b = true ->
      set_cap_style (PStr (a ++ s ++ b)) w = set_cap_style (PStr s) w) /\
  (exists w', set_cap_style (PStr "  SqUArE ") w = Ret tt w' /\
              _cap_style (bar w') = "square") /\
  (exists w',
      set_cap_style
        (PStr (String "009" ("NONE" ++ String "013" (String "010" "")))) w =
      Ret tt w' /\
      _cap_style (bar w') = "none") /\
  set_cap_style (PStr "ro und") w = Raise ValueError w.
Proof.
  split; [| split; [| split; [| split; [| split; [| split; [| split]]]]]].
  - intros s. unfold set_cap_style, assign, raise.
    destruct (bool_decide (PyStr.strip (PyStr.lower s) ∈ _ACCEPTED_BAR_CAPS));
      reflexivity.
  - eexists. split; vm_compute; reflexivity.
  - vm_compute. reflexivity.
  - intros Hr. apply reachable_cap_style in Hr.
    unfold _ACCEPTED_BAR_CAPS in Hr.
    rewrite !elem_of_union, !elem_of_singleton in Hr. tauto.
  - intros a s b Ha Hb. unfold set_cap_style.
    rewrite !lower_app, (lower_blank a Ha), (lower_blank b Hb).
    rewrite (strip_padded a (PyStr.lower s) b Ha Hb). reflexivity.
  - eexists. split; vm_compute; reflexivity.
  - eexists. split; vm_compute; reflexivity.
  - vm_compute. reflexivity.
Qed.

Lemma cap_style_normalised_and_checked_witness :
  reachable glyphs drawn_at_50 /\
  (_cap_style (bar drawn_at_50) = "round" \/
   _cap_style (bar drawn_at_50) = "none" \/
   _cap_style (bar drawn_at_50) = "square") /\
  blank (String "009" " ") = true /\
  set_cap_style (PStr (String "009" " " ++ "Round" ++ " ")) drawn_at_50 =
  set_cap_style (PStr "Round") drawn_at_50.
Proof.
  assert (Hr : reachable glyphs drawn_at_50).
  { apply (reachable_call glyphs (Assign Value (PInt 50)) fresh drawn_at_50).
    - apply (reachable_init glyphs (0%Q, 0%Q)
               (mkWorld imported_labels (new_bar (0%Q, 0%Q) "") 0)).
      vm_compute. reflexivity.
    - vm_compute. reflexivity. }
  destruct (cap_style_normalised_and_checked glyphs drawn_at_50)
    as (_ & _ & _ & Hin & Hpad & _).
  split; [exact Hr |]. split; [exact (Hin Hr) |].
  split; [reflexivity |].
  apply Hpad; reflexivity.
Defined.

(** ** The two comparisons that miss *)

(** In every reachable store the bounds test of the value setter is false:
    whatever the [int], the setter either returns at once (the value is
    the stored one) or stores it and redraws. *)
Lemma set_value_never_rejects render_size (w : World) (v : Z) :
  reachable render_size w ->
  set_value render_size (PInt v) w =
  if v =? _value (bar w) then Ret tt w else _draw render_size (stored v w).
Proof.
  intros Hr. rewrite set_value_int.
  rewrite bounds_test_dead
    by (apply (reachable_bounds_ordered render_size); exact Hr).
  destruct (v =? _value (bar w)); reflexivity.
Qed.

(** C1: on the first widget (bounds 0 and 100) the value setter does not
    reject 150 or -1: with any rasteriser it stores the argument and goes
    on to redraw, and with the rasteriser of the examples each call
    returns with its argument stored as the value and the bounds as they
    were. *)
Theorem set_value_accepts_out_of_range render_size :
  set_value render_size (PInt 150) fresh =
    _draw render_size (stored 150 fresh) /\
  set_value render_size (PInt (-1)) fresh =
    _draw render_size (stored (-1) fresh) /\
  (exists w',
      set_value glyphs (PInt 150) fresh = Ret tt w' /\
      _value (bar w') = 150 /\
      _min_progress (bar w') = 0 /\
      _max_progress (bar w') = 100) /\
  (exists w',
      set_value glyphs (PInt (-1)) fresh = Ret tt w' /\
      _value (bar w') = -1 /\
      _min_progress (bar w') = 0 /\
      _max_progress (bar w') = 100).
Proof.
  split; [| split; [| split]].
  - rewrite set_value_int.
    rewrite bounds_test_dead by (vm_compute; discriminate).
    reflexivity.
  - rewrite set_value_int.
    rewrite bounds_test_dead by (vm_compute; discriminate).
    reflexivity.
  - eexists. split; [vm_compute; reflexivity |].
    repeat split; reflexivity.
  - eexists. split; [vm_compute; reflexivity |].
    repeat split; reflexivity.
Qed.

(** The first widget after [value = 150]: 150 is stored and drawn, the
    label reads ["150%"] and the progress line sweeps 540 degrees. *)
Example value_150_on_first_widget :
  let w := after (set_value glyphs (PInt 150) fresh) fresh in
  set_value glyphs (PInt 150) fresh = Ret tt w /\
  _value (bar w) = 150 /\
  _max_progress (bar w) = 100 /\
  draw_calls w = 1%nat /\
  text <$> (labels w !! _DEFAULT_TEXT_LABEL) = Some "150%" /\
  nth_error (canvas (bar w)) 3 =
    Some (Line [100; 100; 90; 0; 540]%Q 10 (Some ("round", 10))).
Proof. vm_compute. auto 10. Qed.

(** C2: in every store, [set_min] called with the current maximum
    returns and leaves the minimum equal to the maximum; from there
    [get_normalised_progress] raises [ZeroDivisionError]. *)
Theorem set_min_accepts_the_maximum (w : World) :
  exists w',
    set_min (PInt (_max_progress (bar w))) w = Ret tt w' /\
    _min_progress (bar w') = _max_progress (bar w') /\
    get_normalised_progress w' = Raise ZeroDivisionError w'.
Proof.
  eexists. split; [| split].
  - unfold set_min, bind, self, assign, raise. simpl.
    rewrite Z.gtb_ltb, Z.ltb_irrefl. reflexivity.
  - simpl. destruct (bar w); reflexivity.
  - unfold get_normalised_progress, bind, self, truediv, raise. simpl.
    destruct (bar w); simpl. rewrite Z.sub_diag. reflexivity.
Qed.

(** The first widget after [min = 100]: both bounds are 100, and
    [value = 101] then raises [ZeroDivisionError] half way through the
    redraw, with 101 stored. *)
Example min_100_on_first_widget :
  let w := after (set_min (PInt 100) fresh) fresh in
  let w' := after (set_value glyphs (PInt 101) w) w in
  set_min (PInt 100) fresh = Ret tt w /\
  _min_progress (bar w) = 100 /\
  _max_progress (bar w) = 100 /\
  set_value glyphs (PInt 101) w = Raise ZeroDivisionError w' /\
  _value (bar w') = 101.
Proof. vm_compute. auto 10. Qed.

(** ** Setters that raise *)

(** A setter other than the value setter raises only [TypeError] or
    [ValueError], and then the store is the one it started in. *)
Lemma plain_setter_raise
  render_size (s : setter) (value : pyval) (w : World) (e : exn)
  (w' : World) :
  s <> Value ->
  call_setter render_size s value w = Raise e w' ->
  w' = w /\ (e = TypeError \/ e = ValueError).
Proof.
  intros Hs.
  destruct s; try contradiction; simpl;
    unfold set_thickness, set_cap_style, set_cap_precision,
      set_progress_colour, set_background_colour, set_max, set_min,
      set_widget_size, set_label, bind, self, assign, raise, label_at;
    simpl.
  all: destruct value; simpl;
    repeat match goal with
      | |- context [if ?c then _ else _] => destruct c; simpl
      | |- context [match labels ?m !! ?r with _ => _ end] =>
          destruct (labels m !! r); simpl
      end;
    intros H; inversion H; subst; auto.
Qed.

(** A redraw does not look at the canvas it starts with. *)
Lemma draw_forgets_canvas render_size (w : World) (cv0 : list instruction) :
  _draw render_size
    (mkWorld (labels w) (with_canvas cv0 (bar w)) (draw_calls w)) =
  _draw render_size w.
Proof.
  assert (Hcount : forall (k : M unit) (x : World),
             (count_draw ;; k)%py x =
             k (mkWorld (labels x) (bar x) (S (draw_calls x))))
    by reflexivity.
  assert (Hclear : forall (k : M unit) (x : World),
             (assign (with_canvas []) ;; k)%py x =
             k (mkWorld (labels x) (with_canvas [] (bar x)) (draw_calls x)))
    by reflexivity.
  unfold _draw, paint. rewrite !Hcount, !Hclear.
  cbn [labels bar draw_calls].
  replace (with_canvas [] (with_canvas cv0 (bar w)))
    with (with_canvas [] (bar w)) by (destruct (bar w); reflexivity).
  reflexivity.
Qed.

(** What a redraw that raises leaves behind: at most five instructions
    on the canvas, and every label object but the one of the widget as
    it was. *)
Lemma failed_draw_effect render_size (w : World) :
  wp (_draw render_size) (fun _ _ => True)
     (fun _ w' =>
        (length (canvas (bar w')) <= 5)%nat /\
        forall r : nat,
          r <> _text_label (bar w) -> labels w' !! r = labels w !! r)
     True w.
Proof.
  destruct w as [ls [th cs cp pc bc mx mn ws tl v dt lsz [px py] cv] n].
  unfold_draw.
  wp_run; try exact I.
  all: split;
    [ cbn [length app]; lia
    | intros r Hr; rewrite ?lookup_insert_ne by congruence; reflexivity ].
Qed.

(** C6, as the code has it: a setter that raises has either raised
    [TypeError] or [ValueError] out of its own checks, and then the whole
    store (every attribute, the label objects, the canvas, the redraw
    counter) is as before the call; or it is the value setter, which had
    accepted and stored a changed value, and the exception comes out of
    the redraw it started.  Then the new value stays stored and the
    redraw has been counted; no other attribute has changed but the
    label size and the canvas; the canvas holds at most five
    instructions, none of them from before the call (the outcome is the
    same whatever was on the canvas); and no label object but the one of
    the widget has changed. *)
Theorem failed_setter_leaves_store
  render_size (s : setter) (value : pyval) (w : World) (e : exn)
  (w' : World) :
  call_setter render_size s value w = Raise e w' ->
  (w' = w /\ (e = TypeError \/ e = ValueError)) \/
  (s = Value /\
   exists v : Z,
     value = PInt v /\ v <> _value (bar w) /\
     _draw render_size (stored v w) = Raise e w' /\
     _value (bar w') = v /\
     draw_calls w' = S (draw_calls w) /\
     (exists (cv : list instruction) (ls : Z * Z),
         bar w' = with_canvas cv (with_label_size ls (with_value v (bar w))) /\
         (length cv <= 5)%nat) /\
     (forall cv0 : list instruction,
         call_setter render_size Value value
           (mkWorld (labels w) (with_canvas cv0 (bar w)) (draw_calls w)) =
         Raise e w') /\
     (forall r : nat,
         r <> _text_label (bar w) -> labels w' !! r = labels w !! r)).
Proof.
  intros H.
  destruct (setter_eq_dec s Value) as [-> | Hs];
    [| left; apply (plain_setter_raise render_size s value w e w' Hs H)].
  simpl in H.
  destruct value;
    try (left; simpl in H; inversion H; subst; auto; fail).
  rewrite set_value_int in H.
  destruct ((_min_progress (bar w) >? n) && (n >? _max_progress (bar w)))
    eqn:Etest.
  - left. inversion H; subst. auto.
  - destruct (n =? _value (bar w)) eqn:E; cbv [negb] in H; [discriminate H |].
    right. split; [reflexivity |]. exists n.
    apply Z.eqb_neq in E.
    assert (Hf : final (_draw render_size (stored n w)) = Some w')
      by (rewrite H; reflexivity).
    apply draw_effect in Hf. destruct Hf as (Hd & cv & ls & Hb).
    pose proof (wp_raises _ _ _ _ _ _ _
                  (failed_draw_effect render_size (stored n w)) H)
      as [Hlen Hlab].
    split; [reflexivity |]. split; [exact E |]. split; [exact H |].
    split; [rewrite Hb; simpl; destruct (bar w); reflexivity |].
    split; [exact Hd |].
    split; [| split].
    + exists cv, ls. split; [exact Hb |].
      rewrite Hb in Hlen. destruct (bar w); exact Hlen.
    + intros cv0. cbn [call_setter]. rewrite set_value_int.
      cbn [bar labels draw_calls].
      replace (_min_progress (with_canvas cv0 (bar w)))
        with (_min_progress (bar w)) by (destruct (bar w); reflexivity).
      replace (_max_progress (with_canvas cv0 (bar w)))
        with (_max_progress (bar w)) by (destruct (bar w); reflexivity).
      replace (_value (with_canvas cv0 (bar w)))
        with (_value (bar w)) by (destruct (bar w); reflexivity).
      rewrite Etest. apply Z.eqb_neq in E. rewrite E. cbv [negb].
      unfold stored. cbn [bar labels draw_calls].
      replace (with_value n (with_canvas cv0 (bar w)))
        with (with_canvas cv0 (with_value n (bar w)))
        by (destruct (bar w); reflexivity).
      rewrite <- H.
      apply (draw_forgets_canvas render_size
               (mkWorld (labels w) (with_value n (bar w)) (draw_calls w))).
    + intros r Hr. apply Hlab.
      unfold stored. cbn [bar]. destruct (bar w); exact Hr.
Qed.

Lemma failed_setter_leaves_store_witness :
  set_thickness (PInt 0) drawn_at_50 = Raise ValueError drawn_at_50 /\
  ((drawn_at_50 = drawn_at_50 /\
    (ValueError = TypeError \/ ValueError = ValueError)) \/
   (Thickness = Value /\
    exists v : Z,
      PInt 0 = PInt v /\ v <> _value (bar drawn_at_50) /\
      _draw glyphs (stored v drawn_at_50) = Raise ValueError drawn_at_50 /\
      _value (bar drawn_at_50) = v /\
      draw_calls drawn_at_50 = S (draw_calls drawn_at_50) /\
      (exists (cv : list instruction) (ls : Z * Z),
          bar drawn_at_50 =
            with_canvas cv
              (with_label_size ls (with_value v (bar drawn_at_50))) /\
          (length cv <= 5)%nat) /\
      (forall cv0 : list instruction,
          call_setter glyphs Value (PInt 0)
            (mkWorld (labels drawn_at_50) (with_canvas cv0 (bar drawn_at_50))
               (draw_calls drawn_at_50)) =
          Raise ValueError drawn_at_50) /\
      (forall r : nat,
          r <> _text_label (bar drawn_at_50) ->
          labels drawn_at_50 !! r = labels drawn_at_50 !! r))).
Proof.
  assert (H : set_thickness (PInt 0) drawn_at_50 = Raise ValueError drawn_at_50)
    by (vm_compute; reflexivity).
  split; [exact H |].
  exact (failed_setter_leaves_store glyphs Thickness (PInt 0)
           drawn_at_50 ValueError drawn_at_50 H).
Defined.

(** C6, as stated, fails: with a label whose text is a lone opening brace,
    [value = 1] raises [ValueError] (out of [format], inside the redraw)
    after 1 has been stored as the value, the canvas has been cleared and
    the redraw has been counted. *)
Lemma failed_set_value_keeps_new_value :
  call_setter glyphs Value (PInt 1) brace_world =
    Raise ValueError brace_world_failed /\
  _value (bar brace_world) = 0 /\
  _value (bar brace_world_failed) = 1 /\
  draw_calls brace_world = 0%nat /\
  draw_calls brace_world_failed = 1%nat /\
  brace_world_failed <> brace_world.
Proof.
  split; [vm_compute; reflexivity |].
  repeat split; try (vm_compute; reflexivity).
  intros H. apply (f_equal draw_calls) in H. vm_compute in H. discriminate H.
Qed.

(** A redraw that fails later leaves more behind.  With a thickness
    beyond the largest float, [value = 5] raises [OverflowError] where
    the radius is computed: by then the text of the label has been
    refreshed and the background colour issued. *)
Example failed_redraw_leaves_part_of_the_drawing :
  let w := after (set_thickness (PInt (10 ^ 400)) fresh) fresh in
  let w' := after (set_value glyphs (PInt 5) w) w in
  set_value glyphs (PInt 5) w = Raise OverflowError w' /\
  _value (bar w') = 5 /\
  canvas (bar w') =
    [Color [PFloat (Float.literal (26 # 100)); PFloat (Float.literal (26 # 100));
            PFloat (Float.literal (26 # 100)); PInt 1]] /\
  text <$> (labels w' !! 0%nat) = Some "5%" /\
  _label_size (bar w') = (40, 40).
Proof.
  do 4 (split; [vm_compute; reflexivity |]). vm_compute. reflexivity.
Qed.

(** ** The label template *)

(** Computing the normalised progress and the percentage text leaves the
    store alone. *)
Lemma get_normalised_progress_pure (w w' : World) :
  final (get_normalised_progress w) = Some w' -> w' = w.
Proof.
  apply (respects_get_normalised_progress (fun a b => b = a)).
  - reflexivity.
  - intros a b c Hab Hbc. congruence.
Qed.

Lemma percent_text_pure (p : Q) (w w' : World) :
  final (percent_text p w) = Some w' -> w' = w.
Proof.
  apply (respects_percent_text (fun a b => b = a)).
  - reflexivity.
  - intros a b c Hab Hbc. congruence.
Qed.

(** A successful [label = <object at r>] stores the address and the text
    the object has at that moment. *)
Lemma set_label_effect (r : nat) (w w' : World) :
  set_label (PLabel r) w = Ret tt w' ->
  exists l : Label,
    labels w !! r = Some l /\
    w' = mkWorld (labels w)
           (with_default_label_text (text l) (with_text_label r (bar w)))
           (draw_calls w).
Proof.
  unfold set_label, bind, assign, label_at. simpl.
  destruct (labels w !! r) as [l |]; simpl; intros H; inversion H.
  exists l. split; reflexivity.
Qed.

(** No call other than an assignment to [label] changes the template or
    the label the widget refers to. *)
Lemma call_keeps_template render_size (c : call) (w w' : World) :
  is_label_assignment c = false ->
  final (run_call render_size c w) = Some w' ->
  _default_label_text (bar w') = _default_label_text (bar w) /\
  _text_label (bar w') = _text_label (bar w).
Proof.
  intros Hc H.
  destruct c as [s value | | | r t]; simpl in H.
  - destruct (setter_eq_dec s Value) as [-> | Hs].
    + simpl in H. apply set_value_final in H.
      destruct H as [-> | (v & _ & _ & H)]; [auto |].
      apply draw_effect in H. destruct H as (_ & cv & ls & ->).
      simpl. destruct (bar w); auto.
    + destruct s; try contradiction; try discriminate Hc; simpl in H;
        unfold set_thickness, set_cap_style, set_cap_precision,
          set_progress_colour, set_background_colour, set_max, set_min,
          set_widget_size, bind, self, assign, raise in H;
        simpl in H.
      all: destruct value; simpl in H;
        repeat match type of H with
          | context [if ?c then _ else _] => destruct c; simpl in H
          end;
        inversion H; subst; simpl; auto;
        match goal with |- context [bar ?x] => destruct (bar x) end; auto.
  - apply paints_only_refresh_text in H. destruct H as (_ & cv & ls & ->).
    destruct (bar w); auto.
  - apply draw_effect in H. destruct H as (_ & cv & ls & ->).
    destruct (bar w); auto.
  - apply paints_only_set_label_text in H. destruct H as (_ & cv & ls & ->).
    destruct (bar w); auto.
Qed.

Lemma run_calls_keeps_template render_size (cs : list call) :
  forall w w' : World,
    Forall (fun c => is_label_assignment c = false) cs ->
    run_calls render_size cs w = Ret tt w' ->
    _default_label_text (bar w') = _default_label_text (bar w) /\
    _text_label (bar w') = _text_label (bar w).
Proof.
  induction cs as [| c rest IH]; intros w w' Hcs H.
  - inversion H; subst. auto.
  - inversion Hcs as [| c0 rest0 Hc Hrest]; subst.
    simpl in H. unfold bind in H.
    destruct (run_call render_size c w) as [[] w1 | e w1 |] eqn:E;
      try discriminate H.
    destruct (call_keeps_template render_size c w w1 Hc) as [Ht Hr];
      [rewrite E; reflexivity |].
    destruct (IH w1 w' Hrest H) as [Ht' Hr'].
    split; congruence.
Qed.

(** What a [_refresh_text] that returns has done: it has computed the
    normalised progress [p] and the text [arg] of its percentage, put
    [arg] into the template with [format], and made the result the text
    of the label the widget refers to. *)
Lemma refresh_text_renders render_size (w w' : World) :
  _refresh_text render_size w = Ret tt w' ->
  exists (p : Q) (arg : string) (l : Label),
    get_normalised_progress w = Ret p w /\
    percent_text p w = Ret arg w /\
    PyStr.format (_default_label_text (bar w)) arg = PyStr.FOk (text l) /\
    labels w' !! _text_label (bar w) = Some l.
Proof.
  unfold _refresh_text, bind at 1 2. unfold self at 1.
  destruct (get_normalised_progress w) as [p w1 | e w1 |] eqn:E;
    try discriminate.
  assert (Hw : w1 = w)
    by (apply get_normalised_progress_pure; rewrite E; reflexivity).
  subst w1. unfold bind at 1.
  destruct (percent_text p w) as [arg w1 | e w1 |] eqn:Ea; try discriminate.
  assert (Hw : w1 = w)
    by (apply (percent_text_pure p); rewrite Ea; reflexivity).
  subst w1.
  destruct (PyStr.format (_default_label_text (bar w)) arg)
    as [t | e |] eqn:F; try discriminate.
  unfold refresh, bind, label_at, store_label, assign, unmodelled. simpl.
  destruct (labels w !! _text_label (bar w)) as [l |]; try discriminate.
  simpl. rewrite !lookup_insert_eq. simpl. rewrite !lookup_insert_eq. simpl.
  intros H. inversion H; subst; clear H. simpl.
  exists p, arg. eexists.
  split; [first [exact E | reflexivity] |].
  split; [first [exact Ea | reflexivity] |].
  split; cycle 1.
  - rewrite lookup_insert_eq. reflexivity.
  - first [exact F | rewrite F; reflexivity].
Qed.

(** C9, as the code has it: after two assignments to [label] (with any
    calls between them) and any calls after the second that do not
    assign to [label] (value changes, redraws, text refreshes, other
    setters, the program writing to the text of a label object), a text
    refresh makes the text of the second label object the text that
    object carried at the moment it was assigned, with
    [str(int(p * 100))] put into it by [format], where [p] is the
    normalised progress at the refresh.  The template of the first
    assignment plays no part, and neither does any text written after
    the second; but the text the object carried when it was assigned is
    the template whoever wrote it, an earlier refresh included. *)
Theorem label_text_from_latest_template
  render_size (w wa wb wc wd we : World) (r1 r2 : nat) (l2 : Label)
  (cs1 cs2 : list call) :
  set_label (PLabel r1) w = Ret tt wa ->
  run_calls render_size cs1 wa = Ret tt wb ->
  labels wb !! r2 = Some l2 ->
  set_label (PLabel r2) wb = Ret tt wc ->
  Forall (fun c => is_label_assignment c = false) cs2 ->
  run_calls render_size cs2 wc = Ret tt wd ->
  _refresh_text render_size wd = Ret tt we ->
  _default_label_text (bar wd) = text l2 /\
  exists (p : Q) (arg : string) (l : Label),
    get_normalised_progress wd = Ret p wd /\
    percent_text p wd = Ret arg wd /\
    PyStr.format (text l2) arg = PyStr.FOk (text l) /\
    labels we !! r2 = Some l.
Proof.
  intros _ _ Hl2 Hset Hcs Hrun Href.
  apply set_label_effect in Hset. destruct Hset as (l & Hl & ->).
  rewrite Hl2 in Hl. inversion Hl; subst l; clear Hl.
  destruct (run_calls_keeps_template render_size cs2 _ wd Hcs Hrun)
    as [Ht Hr].
  simpl in Ht, Hr.
  assert (Ht2 : _default_label_text (bar wd) = text l2)
    by (rewrite Ht; destruct (bar wb); reflexivity).
  assert (Hr2 : _text_label (bar wd) = r2)
    by (rewrite Hr; destruct (bar wb); reflexivity).
  split; [exact Ht2 |].
  destruct (refresh_text_renders render_size wd we Href)
    as (p & arg & l & Hp & Ha & Hf & Hlab).
  exists p, arg, l. rewrite <- Ht2, <- Hr2. auto.
Qed.

Lemma label_text_from_latest_template_witness :
  text <$> (labels relabel_b !! 1%nat) = Some "Loading 50%" /\
  text <$> (labels relabel_e !! 2%nat) = Some "--=75=--" /\
  _default_label_text (bar relabel_d) = "--={}=--" /\
  exists (p : Q) (arg : string) (l : Label),
    get_normalised_progress relabel_d = Ret p relabel_d /\
    percent_text p relabel_d = Ret arg relabel_d /\
    PyStr.format "--={}=--" arg = PyStr.FOk (text l) /\
    labels relabel_e !! 2%nat = Some l.
Proof.
  split; [vm_compute; reflexivity |]. split; [vm_compute; reflexivity |].
  apply (label_text_from_latest_template glyphs
           two_label_world relabel_a relabel_b relabel_c relabel_d relabel_e
           1%nat 2%nat (mkLabel "--={}=--" 20 None) first_calls second_calls).
  - vm_compute. reflexivity.
  - vm_compute. reflexivity.
  - vm_compute. reflexivity.
  - vm_compute. reflexivity.
  - repeat constructor.
  - vm_compute. reflexivity.
  - vm_compute. reflexivity.
Defined.

(** C9, as stated, fails: a label object with the text ["Loading {}%"]
    is assigned and the widget drawn at 50, which writes ["Loading 50%"]
    into the object; the same object is then assigned again.  The
    template is now the substituted string ["Loading 50%"], and the
    redraw at 75 renders that string, not ["Loading 75%"]. *)
Lemma rendered_text_taken_as_template :
  set_label (PLabel 1) two_label_world = Ret tt relabel_a /\
  _default_label_text (bar relabel_a) = "Loading {}%" /\
  set_value glyphs (PInt 50) relabel_a = Ret tt again_b /\
  text <$> (labels again_b !! 1%nat) = Some "Loading 50%" /\
  set_label (PLabel 1) again_b = Ret tt again_c /\
  _default_label_text (bar again_c) = "Loading 50%" /\
  set_value glyphs (PInt 75) again_c = Ret tt again_d /\
  text <$> (labels again_d !! 1%nat) = Some "Loading 50%" /\
  PyStr.format "Loading {}%" "75" = PyStr.FOk "Loading 75%".
Proof.
  do 8 (split; [vm_compute; reflexivity |]). vm_compute. reflexivity.
Qed.

(** Handing the widget the label object it already draws on makes the
    text of the last refresh the template. *)
Example same_object_relabelled :
  _default_label_text (bar drawn_at_50) = "{}%" /\
  _default_label_text
    (bar (after (set_label (PLabel _DEFAULT_TEXT_LABEL) drawn_at_50)
            drawn_at_50)) = "50%".
Proof. split; vm_compute; reflexivity. Qed.

(** ** Examples *)

Example lower_RouND : PyStr.strip (PyStr.lower "RouND") = "round".
Proof. reflexivity. Qed.

Example strip_spaces : PyStr.strip (PyStr.lower "  SqUArE ") = "square".
Proof. reflexivity. Qed.

Example format_percent : PyStr.format "{}%" "50" = PyStr.FOk "50%".
Proof. reflexivity. Qed.

Example format_escaped : PyStr.format "{{}} {0}{0}" "7" = PyStr.FOk "{} 77".
Proof. reflexivity. Qed.

Example format_single_open : PyStr.format "{" "1" = PyStr.FRaise ValueError.
Proof. reflexivity. Qed.

Example format_single_close : PyStr.format "a}b" "1" = PyStr.FRaise ValueError.
Proof. reflexivity. Qed.

Example format_second_slot : PyStr.format "{}{}" "1" = PyStr.FRaise IndexError.
Proof. reflexivity. Qed.

Example format_mixed : PyStr.format "{}{0}" "1" = PyStr.FRaise ValueError.
Proof. reflexivity. Qed.

Example str_of_int_neg : PyStr.str_of_int (-50) = "-50".
Proof. reflexivity. Qed.

(** [0.29 * 100] is the float just below 29. *)
Example binary64_29_percent :
  Float.binary64 (29 # 100) = Some (5224175567749775 # 18014398509481984)%Q /\
  Float.binary64 ((5224175567749775 # 18014398509481984) * 100) =
    Some (8162774324609023 # 281474976710656)%Q /\
  Float.to_int (8162774324609023 # 281474976710656) = 28.
Proof. repeat split; vm_compute; reflexivity. Qed.

(** The largest float, and the first integer that is too large. *)
Example binary64_largest :
  Float.binary64 (inject_Z (2 ^ 1024 - 2 ^ 970 - 1)) =
    Some (inject_Z (2 ^ 1024 - 2 ^ 971)) /\
  Float.binary64 (inject_Z (2 ^ 1024 - 2 ^ 970)) = None.
Proof. split; vm_compute; reflexivity. Qed.

(** [__init__] on the store right after the import makes the first
    widget. *)
Example init_makes_fresh :
  __init__ (0%Q, 0%Q) (mkWorld imported_labels (new_bar (0%Q, 0%Q) "") 0)
  = Ret tt fresh.
Proof. vm_compute. reflexivity. Qed.

(** The first widget at [value = 50]: the label reads ["50%"] and the
    progress line sweeps 180 degrees. *)
Example half_way :
  text <$> (labels drawn_at_50 !! _DEFAULT_TEXT_LABEL) = Some "50%" /\
  draw_calls drawn_at_50 = 1%nat /\
  canvas (bar drawn_at_50) =
    [Color [PFloat (Float.literal (26 # 100)); PFloat (Float.literal (26 # 100));
            PFloat (Float.literal (26 # 100)); PInt 1];
     Line [100; 100; 90]%Q 10 None;
     Color [PInt 1; PInt 0; PInt 0; PInt 1];
     Line [100; 100; 90; 0; 180]%Q 10 (Some ("round", 10));
     Color [PInt 1; PInt 1; PInt 1; PInt 1];
     Rectangle (Some (mkTexture "50%" (60, 40))) (60, 40) (70, 80)%Q].
Proof. vm_compute. auto. Qed.

(** The first widget at [value = 29]: the label reads ["28%"]. *)
Example value_29_reads_28 :
  text <$> (labels (after (set_value glyphs (PInt 29) fresh) fresh)
              !! _DEFAULT_TEXT_LABEL) = Some "28%".
Proof. vm_compute. reflexivity. Qed.

(** A value too large for a float: the redraw raises [OverflowError]
    with the value stored. *)
Example huge_value_overflows :
  let w := after (set_value glyphs (PInt (10 ^ 400)) fresh) fresh in
  set_value glyphs (PInt (10 ^ 400)) fresh = Raise OverflowError w /\
  _value (bar w) = 10 ^ 400.
Proof. vm_compute. auto. Qed.

(** * More of the class *)

(** ** What [format] can raise *)

Lemma emit_raise (prefix : string) (r : PyStr.fmt_result) (e : exn) :
  PyStr.emit prefix r = PyStr.FRaise e -> r = PyStr.FRaise e.
Proof. destruct r; simpl; intros H; inversion H; reflexivity. Qed.

Lemma format_from_raises (s : string) :
  forall (p : PyStr.place) (num : PyStr.numbering) (arg : string) (e : exn),
    PyStr.format_from p num arg s = PyStr.FRaise e ->
    e = ValueError \/ e = IndexError.
Proof.
  induction s as [| c r IH]; intros p num arg e H.
  - destruct p; simpl in H; inversion H; auto.
  - assert (Hfield : forall name,
      (if PyStr.is_char c "}" then
         if String.eqb name "" then
           match num with
           | PyStr.NumInit =>
               PyStr.emit arg (PyStr.format_from PyStr.InText PyStr.NumAuto arg r)
           | PyStr.NumAuto => PyStr.FRaise IndexError
           | PyStr.NumManual => PyStr.FRaise ValueError
           end
         else if String.eqb name "0" then
           match num with
           | PyStr.NumAuto => PyStr.FRaise ValueError
           | _ => PyStr.emit arg
                    (PyStr.format_from PyStr.InText PyStr.NumManual arg r)
           end
         else PyStr.FUnmodelled
       else if PyStr.is_char c "{" then PyStr.FRaise ValueError
       else if PyStr.is_char c "[" || PyStr.is_char c ":" || PyStr.is_char c "!"
            then PyStr.FUnmodelled
       else PyStr.format_from (PyStr.InField (name ++ String c "")) num arg r)
      = PyStr.FRaise e -> e = ValueError \/ e = IndexError).
    { intros name Hf.
      destruct (PyStr.is_char c "}").
      - destruct (String.eqb name "").
        + destruct num; try (inversion Hf; auto; fail).
          apply emit_raise in Hf. eapply IH; exact Hf.
        + destruct (String.eqb name "0"); [| discriminate Hf].
          destruct num; try (inversion Hf; auto; fail);
            apply emit_raise in Hf; eapply IH; exact Hf.
      - destruct (PyStr.is_char c "{"); [inversion Hf; auto |].
        destruct (PyStr.is_char c "[" || PyStr.is_char c ":" ||
                  PyStr.is_char c "!"); [discriminate Hf |].
        eapply IH; exact Hf. }
    destruct p; simpl in H.
    + destruct (PyStr.is_char c "{"); [eapply IH; exact H |].
      destruct (PyStr.is_char c "}"); [eapply IH; exact H |].
      apply emit_raise in H. eapply IH; exact H.
    + destruct (PyStr.is_char c "{").
      * apply emit_raise in H. eapply IH; exact H.
      * apply (Hfield ""). exact H.
    + apply (Hfield name). exact H.
    + destruct (PyStr.is_char c "}"); [| inversion H; auto].
      apply emit_raise in H. eapply IH; exact H.
Qed.

Lemma format_raises (template arg : string) (e : exn) :
  PyStr.format template arg = PyStr.FRaise e ->
  e = ValueError \/ e = IndexError.
Proof. apply format_from_raises. Qed.

(** ** What a redraw can raise *)

(** Closing a branch of a classification of exceptions. *)
Ltac failure_case :=
  match goal with
  | H : (2 =? 0) = true |- _ => discriminate H
  | H : (_ - _ =? 0) = true |- _ =>
      left; split; [reflexivity | apply Z.eqb_eq in H; lia]
  | H : PyStr.format _ _ = PyStr.FRaise _ |- _ =>
      apply format_raises in H; destruct H as [-> | ->]; auto 10
  | |- _ => auto 10
  end.

Lemma draw_raises_classified render_size (w : World) :
  wp (_draw render_size) (fun _ _ => True)
     (fun e _ => draw_failure w e) True w.
Proof.
  unfold_draw. unfold draw_failure.
  wp_run; failure_case.
Qed.

(** ** More invariants of the reachable stores *)

Lemma reachable_well_configured render_size (w : World) :
  reachable render_size w -> well_configured (bar w).
Proof.
  unfold well_configured.
  induction 1 as [p w0 w Hinit | c w w' Hr IH Hc].
  - unfold __init__, bind, label_at, assign in Hinit.
    destruct (labels w0 !! _DEFAULT_TEXT_LABEL); inversion Hinit; subst.
    simpl. unfold _DEFAULT_THICKNESS, _DEFAULT_PRECISION, _DEFAULT_WIDGET_SIZE.
    repeat split; reflexivity.
  - apply run_call_config_step in Hc.
    inversion Hc; subst; destruct (bar w); simpl in *; tauto.
Qed.

Lemma reachable_cap_style_normal render_size (w : World) :
  reachable render_size w ->
  PyStr.strip (PyStr.lower (_cap_style (bar w))) = _cap_style (bar w) /\
  bool_decide (_cap_style (bar w) ∈ _ACCEPTED_BAR_CAPS) = true.
Proof.
  intros Hr. apply reachable_cap_style in Hr.
  split; [| apply bool_decide_eq_true; exact Hr].
  unfold _ACCEPTED_BAR_CAPS in Hr.
  rewrite !elem_of_union, !elem_of_singleton in Hr.
  destruct Hr as [[-> | ->] | ->]; reflexivity.
Qed.

Lemma drawn_at_50_reachable : reachable glyphs drawn_at_50.
Proof.
  apply (reachable_call glyphs (Assign Value (PInt 50)) fresh drawn_at_50).
  - apply (reachable_init glyphs (0%Q, 0%Q)
             (mkWorld imported_labels (new_bar (0%Q, 0%Q) "") 0)).
    vm_compute. reflexivity.
  - vm_compute. reflexivity.
Qed.

(** X1: in every store a program can reach, the thickness, the cap
    precision and the widget size are positive, both colours are
    iterable, and the cap style is its own lowercased, stripped form. *)
Theorem reachable_configuration_valid render_size (w : World) :
  reachable render_size w ->
  0 < _thickness (bar w) /\
  0 < _cap_precision (bar w) /\
  0 < _widget_size (bar w) /\
  is_iterable (_progress_colour (bar w)) = true /\
  is_iterable (_background_colour (bar w)) = true /\
  PyStr.strip (PyStr.lower (_cap_style (bar w))) = _cap_style (bar w).
Proof.
  intros Hr.
  destruct (reachable_well_configured render_size w Hr)
    as (Ht & Hp & Hs & Hfg & Hbg).
  repeat (split; [assumption |]).
  apply (reachable_cap_style_normal render_size w Hr).
Qed.

Lemma reachable_configuration_valid_witness :
  reachable glyphs drawn_at_50 /\
  0 < _thickness (bar drawn_at_50) /\
  0 < _cap_precision (bar drawn_at_50) /\
  0 < _widget_size (bar drawn_at_50) /\
  is_iterable (_progress_colour (bar drawn_at_50)) = true /\
  is_iterable (_background_colour (bar drawn_at_50)) = true /\
  PyStr.strip (PyStr.lower (_cap_style (bar drawn_at_50))) =
    _cap_style (bar drawn_at_50).
Proof.
  split; [exact drawn_at_50_reachable |].
  apply (reachable_configuration_valid glyphs drawn_at_50).
  exact drawn_at_50_reachable.
Defined.

(** ** Reading a property and assigning it back *)

Lemma with_thickness_same (b : CircularProgressBar) :
  with_thickness (_thickness b) b = b.
Proof. destruct b; reflexivity. Qed.

Lemma with_cap_style_same (b : CircularProgressBar) :
  with_cap_style (_cap_style b) b = b.
Proof. destruct b; reflexivity. Qed.

Lemma with_cap_precision_same (b : CircularProgressBar) :
  with_cap_precision (_cap_precision b) b = b.
Proof. destruct b; reflexivity. Qed.

Lemma with_progress_colour_same (b : CircularProgressBar) :
  with_progress_colour (_progress_colour b) b = b.
Proof. destruct b; reflexivity. Qed.

Lemma with_background_colour_same (b : CircularProgressBar) :
  with_background_colour (_background_colour b) b = b.
Proof. destruct b; reflexivity. Qed.

Lemma with_widget_size_same (b : CircularProgressBar) :
  with_widget_size (_widget_size b) b = b.
Proof. destruct b; reflexivity. Qed.

Lemma with_max_progress_same (b : CircularProgressBar) :
  with_max_progress (_max_progress b) b = b.
Proof. destruct b; reflexivity. Qed.

Lemma world_same (w : World) :
  mkWorld (labels w) (bar w) (draw_calls w) = w.
Proof. destruct w; reflexivity. Qed.

(** X2: in every store a program can reach, assigning to [thickness],
    [cap_style], [cap_precision], [progress_colour], [background_colour],
    [widget_size] or [value] what its getter returns succeeds and changes
    nothing; for [max] this holds exactly when the minimum is below the
    maximum (with the two equal the assignment raises [ValueError]), and
    for [min] the assignment succeeds and resets the value to the
    minimum. *)
Theorem assigning_back_what_was_read render_size (w : World) :
  reachable render_size w ->
  (forall s : setter,
      s <> Max -> s <> Min -> s <> LabelAttr ->
      call_setter render_size s (get_property s (bar w)) w = Ret tt w) /\
  (_min_progress (bar w) < _max_progress (bar w) ->
   call_setter render_size Max (get_property Max (bar w)) w = Ret tt w) /\
  (_min_progress (bar w) = _max_progress (bar w) ->
   call_setter render_size Max (get_property Max (bar w)) w =
   Raise ValueError w) /\
  call_setter render_size Min (get_property Min (bar w)) w =
  Ret tt (stored (_min_progress (bar w)) w).
Proof.
  intros Hr.
  destruct (reachable_well_configured render_size w Hr)
    as (Ht & Hp & Hs & Hfg & Hbg).
  destruct (reachable_cap_style_normal render_size w Hr) as [Hn Hc].
  pose proof (reachable_bounds_ordered render_size w Hr) as Hb.
  split; [| split; [| split]].
  - intros s H1 H2 H3. destruct s; try contradiction; simpl.
    + unfold set_thickness, assign. simpl.
      destruct (_thickness (bar w) <=? 0) eqn:E;
        [apply Z.leb_le in E; lia |].
      rewrite with_thickness_same. apply f_equal, world_same.
    + unfold set_cap_style, assign. rewrite Hn, Hc. simpl.
      rewrite with_cap_style_same. apply f_equal, world_same.
    + unfold set_cap_precision, assign. simpl.
      destruct (_cap_precision (bar w) <=? 0) eqn:E;
        [apply Z.leb_le in E; lia |].
      rewrite with_cap_precision_same. apply f_equal, world_same.
    + unfold set_progress_colour, assign. rewrite Hfg. simpl.
      rewrite with_progress_colour_same. apply f_equal, world_same.
    + unfold set_background_colour, assign. rewrite Hbg. simpl.
      rewrite with_background_colour_same. apply f_equal, world_same.
    + rewrite set_value_int, Z.eqb_refl.
      rewrite bounds_test_dead by exact Hb. reflexivity.
    + unfold set_widget_size, assign. simpl.
      destruct (_widget_size (bar w) <=? 0) eqn:E;
        [apply Z.leb_le in E; lia |].
      rewrite with_widget_size_same. apply f_equal, world_same.
  - intros Hlt. simpl. unfold set_max, bind, self, assign, raise. simpl.
    destruct (_max_progress (bar w) <=? _min_progress (bar w)) eqn:E;
      [apply Z.leb_le in E; lia |].
    rewrite with_max_progress_same. apply f_equal, world_same.
  - intros Heq. simpl. unfold set_max, bind, self, assign, raise. simpl.
    destruct (_max_progress (bar w) <=? _min_progress (bar w)) eqn:E;
      [reflexivity | apply Z.leb_gt in E; lia].
  - simpl. unfold set_min, bind, self, assign, raise, stored. simpl.
    destruct (_min_progress (bar w) >? _max_progress (bar w)) eqn:E;
      [rewrite Z.gtb_ltb in E; apply Z.ltb_lt in E; lia |].
    destruct (bar w); reflexivity.
Qed.

Lemma assigning_back_what_was_read_witness :
  reachable glyphs drawn_at_50 /\
  call_setter glyphs CapStyle (get_property CapStyle (bar drawn_at_50))
    drawn_at_50 = Ret tt drawn_at_50 /\
  call_setter glyphs Min (get_property Min (bar drawn_at_50)) drawn_at_50 =
  Ret tt (stored (_min_progress (bar drawn_at_50)) drawn_at_50).
Proof.
  split; [exact drawn_at_50_reachable |].
  destruct (assigning_back_what_was_read glyphs drawn_at_50
              drawn_at_50_reachable) as (Hplain & _ & _ & Hmin).
  split; [| exact Hmin].
  apply Hplain; discriminate.
Defined.

(** ** What a setter leaves alone *)

Lemma get_property_painted (t : setter) (b : CircularProgressBar)
  (cv : list instruction) (ls : Z * Z) :
  get_property t (with_canvas cv (with_label_size ls b)) = get_property t b.
Proof. destruct t, b; reflexivity. Qed.

(** X3: whether it returns or raises, a setter changes no property but
    its own, as the getters show them; the one exception is the [min]
    setter, which also changes the value. *)
Theorem setter_changes_only_its_property
  render_size (s t : setter) (value : pyval) (w w' : World) :
  final (call_setter render_size s value w) = Some w' ->
  t <> s ->
  (s = Min -> t <> Value) ->
  get_property t (bar w') = get_property t (bar w).
Proof.
  intros H Hts Hmin.
  destruct (setter_eq_dec s Value) as [-> | Hs].
  - simpl in H. apply set_value_final in H.
    destruct H as [-> | (v & _ & _ & H)]; [reflexivity |].
    apply draw_effect in H. destruct H as (_ & cv & ls & ->).
    rewrite get_property_painted. simpl.
    destruct t, (bar w); try reflexivity; contradiction.
  - destruct s; try contradiction; simpl in H;
      unfold set_thickness, set_cap_style, set_cap_precision,
        set_progress_colour, set_background_colour, set_max, set_min,
        set_widget_size, set_label, bind, self, assign, raise, label_at in H;
      simpl in H.
    all: destruct value; simpl in H;
      repeat match type of H with
        | context [if ?c then _ else _] => destruct c; simpl in H
        | context [match labels ?m !! ?r with _ => _ end] =>
            destruct (labels m !! r); simpl in H
        end;
      inversion H; subst; simpl; try reflexivity;
      destruct t; try contradiction; try reflexivity;
      try (exfalso; apply Hmin; reflexivity);
      match goal with |- context [bar ?x] => destruct (bar x) end;
      reflexivity.
Qed.

Lemma setter_changes_only_its_property_witness :
  final (call_setter glyphs Max (PInt 10) drawn_at_50) =
    Some (after (set_max (PInt 10) drawn_at_50) drawn_at_50) /\
  get_property Value (bar (after (set_max (PInt 10) drawn_at_50) drawn_at_50))
  = get_property Value (bar drawn_at_50).
Proof.
  assert (H : final (call_setter glyphs Max (PInt 10) drawn_at_50) =
              Some (after (set_max (PInt 10) drawn_at_50) drawn_at_50))
    by (vm_compute; reflexivity).
  split; [exact H |].
  apply (setter_changes_only_its_property glyphs Max Value (PInt 10)
           drawn_at_50 _ H); discriminate.
Defined.

(** After [value = 50], [max = 10] succeeds and leaves the value, 50,
    above the new maximum. *)
Example max_below_value :
  let w := after (set_max (PInt 10) drawn_at_50) drawn_at_50 in
  set_max (PInt 10) drawn_at_50 = Ret tt w /\
  _max_progress (bar w) = 10 /\ _value (bar w) = 50.
Proof. vm_compute. auto. Qed.

(** ** Failures of the value setter and of the redraw *)

(** X4: in every store a program can reach, the range check of the
    value setter never fires.  A value setter that raises has either
    raised [TypeError] on an argument that is not an [int], leaving the
    store unchanged, or was given an [int] other than the stored value:
    then the exception is the one the redraw of that value raised, the
    value is by then stored and the redraw counted, and the bounds are
    as they were. *)
Theorem value_setter_failures
  render_size (w : World) (value : pyval) (e : exn) (w' : World) :
  reachable render_size w ->
  set_value render_size value w = Raise e w' ->
  (e = TypeError /\ as_int value = None /\ w' = w) \/
  (exists v : Z,
      value = PInt v /\ v <> _value (bar w) /\
      _draw render_size (stored v w) = Raise e w' /\
      _value (bar w') = v /\
      draw_calls w' = S (draw_calls w) /\
      _min_progress (bar w') = _min_progress (bar w) /\
      _max_progress (bar w') = _max_progress (bar w)).
Proof.
  intros Hr H.
  destruct (as_int value) as [v |] eqn:Ev.
  - right. destruct value; try discriminate Ev. inversion Ev; subst n.
    rewrite (set_value_never_rejects render_size w v Hr) in H.
    destruct (v =? _value (bar w)) eqn:E; [discriminate H |].
    apply Z.eqb_neq in E. exists v. split; [reflexivity |]. split; [exact E |].
    split; [exact H |].
    assert (Hf : final (_draw render_size (stored v w)) = Some w')
      by (rewrite H; reflexivity).
    apply draw_effect in Hf. destruct Hf as (Hd & cv & ls & Hb).
    rewrite Hb. cbn [stored bar draw_calls] in *.
    split; [destruct (bar w); reflexivity |].
    split; [exact Hd |].
    split; destruct (bar w); reflexivity.
  - left. unfold set_value in H. rewrite Ev in H. inversion H. auto.
Qed.

Lemma value_setter_failures_witness :
  reachable glyphs brace_world /\
  set_value glyphs (PInt 1) brace_world = Raise ValueError brace_world_failed /\
  ((ValueError = TypeError /\ as_int (PInt 1) = None /\
    brace_world_failed = brace_world) \/
   (exists v : Z,
       PInt 1 = PInt v /\ v <> _value (bar brace_world) /\
       _draw glyphs (stored v brace_world) =
         Raise ValueError brace_world_failed /\
       _value (bar brace_world_failed) = v /\
       draw_calls brace_world_failed = S (draw_calls brace_world) /\
       _min_progress (bar brace_world_failed) =
         _min_progress (bar brace_world) /\
       _max_progress (bar brace_world_failed) =
         _max_progress (bar brace_world))).
Proof.
  assert (Hr : reachable glyphs brace_world).
  { apply (reachable_call glyphs (Assign LabelAttr (PLabel 1))
             (mkWorld brace_labels (bar fresh) 0) brace_world).
    - apply (reachable_init glyphs (0%Q, 0%Q)
               (mkWorld brace_labels (new_bar (0%Q, 0%Q) "") 0)).
      vm_compute. reflexivity.
    - vm_compute. reflexivity. }
  assert (H : set_value glyphs (PInt 1) brace_world =
              Raise ValueError brace_world_failed)
    by (vm_compute; reflexivity).
  split; [exact Hr |]. split; [exact H |].
  exact (value_setter_failures glyphs brace_world (PInt 1) ValueError
           brace_world_failed Hr H).
Defined.

(** X5: in any store, [get_normalised_progress] and [_draw] raise
    [ZeroDivisionError] exactly when the minimum equals the maximum; the
    redraw then stops with the call counted and the canvas cleared, and
    nothing else changed. *)
Theorem zero_range_breaks_the_redraw render_size (w : World) :
  ((exists w', get_normalised_progress w = Raise ZeroDivisionError w') <->
   _max_progress (bar w) = _min_progress (bar w)) /\
  ((exists w', _draw render_size w = Raise ZeroDivisionError w') <->
   _max_progress (bar w) = _min_progress (bar w)) /\
  (forall w',
      _draw render_size w = Raise ZeroDivisionError w' ->
      w' = mkWorld (labels w) (with_canvas [] (bar w)) (S (draw_calls w))).
Proof.
  assert (Hzero : _max_progress (bar w) = _min_progress (bar w) ->
                  get_normalised_progress w = Raise ZeroDivisionError w /\
                  _draw render_size w =
                  Raise ZeroDivisionError
                    (mkWorld (labels w) (with_canvas [] (bar w))
                       (S (draw_calls w)))).
  { intros Heq. split.
    - unfold get_normalised_progress, bind, self, truediv, raise.
      rewrite Heq, Z.sub_diag. reflexivity.
    - unfold _draw, paint, _refresh_text, get_normalised_progress, bind,
        count_draw, assign, self, truediv, raise. simpl.
      replace (_max_progress (with_canvas [] (bar w)))
        with (_max_progress (bar w)) by (destruct (bar w); reflexivity).
      replace (_min_progress (with_canvas [] (bar w)))
        with (_min_progress (bar w)) by (destruct (bar w); reflexivity).
      rewrite Heq, Z.sub_diag. reflexivity. }
  assert (Hdraw : forall w', _draw render_size w = Raise ZeroDivisionError w' ->
                             _max_progress (bar w) = _min_progress (bar w)).
  { intros w' H.
    pose proof (draw_raises_classified render_size w) as Hwp.
    apply (wp_raises _ _ _ _ _ _ _ Hwp) in H.
    destruct H as [[_ H] | [H | [H | [H | [H _]]]]];
      try discriminate H; exact H. }
  split; [| split].
  - split.
    + intros [w' H].
      unfold get_normalised_progress, bind, self, truediv, float_of_int,
        fadd, float_result, raise, ret in H.
      destruct (_max_progress (bar w) - _min_progress (bar w) =? 0) eqn:E;
        [apply Z.eqb_eq in E; lia |].
      destruct (Float.binary64 _); [| discriminate H].
      destruct (Float.binary64 (inject_Z _NORMALISED_MIN));
        [| discriminate H].
      destruct (Float.binary64 _); discriminate H.
    + intros Heq. exists w. apply (Hzero Heq).
  - split.
    + intros [w' H]. apply (Hdraw w' H).
    + intros Heq. eexists. apply (Hzero Heq).
  - intros w' H. pose proof (Hdraw w' H) as Heq.
    destruct (Hzero Heq) as [_ Hd]. rewrite Hd in H. inversion H. reflexivity.
Qed.

(** ** Keeping the bounds apart *)

(** X6: a call made with the minimum below the maximum leaves the
    minimum below the maximum, whether it returns or raises, unless it is
    [min = <the current maximum>]; so the bounds can only meet through
    that one assignment. *)
Theorem bounds_meet_only_through_set_min
  render_size (c : call) (w w' : World) :
  _min_progress (bar w) < _max_progress (bar w) ->
  final (run_call render_size c w) = Some w' ->
  _min_progress (bar w') < _max_progress (bar w') \/
  c = Assign Min (PInt (_max_progress (bar w))).
Proof.
  intros Hlt H.
  assert (Hpaint : forall cv ls b,
             _min_progress b < _max_progress b ->
             _min_progress (with_canvas cv (with_label_size ls b)) <
             _max_progress (with_canvas cv (with_label_size ls b)))
    by (intros cv ls b Hb; destruct b; exact Hb).
  destruct c as [s value | | | r t]; simpl in H.
  - destruct s; simpl in H.
    8: { left. apply set_value_final in H.
         destruct H as [-> | (v & _ & _ & H)]; [exact Hlt |].
         apply draw_effect in H. destruct H as (_ & cv & ls & ->).
         apply Hpaint. simpl. destruct (bar w); exact Hlt. }
    7: { unfold set_min, bind, self, assign, raise in H.
         destruct value; simpl in H;
           try (inversion H; subst; left; exact Hlt).
         rewrite Z.gtb_ltb in H.
         destruct (_max_progress (bar w) <? n) eqn:E; simpl in H;
           inversion H; subst; [left; exact Hlt |].
         apply Z.ltb_ge in E.
         destruct (Z.eq_dec n (_max_progress (bar w))) as [-> | Hne];
           [right; reflexivity |].
         left. simpl. destruct (bar w); simpl in *. lia. }
    6: { unfold set_max, bind, self, assign, raise in H.
         destruct value; simpl in H;
           try (inversion H; subst; left; exact Hlt).
         destruct (n <=? _min_progress (bar w)) eqn:E; simpl in H;
           inversion H; subst; [left; exact Hlt |].
         apply Z.leb_gt in E. left. simpl. destruct (bar w); simpl in *. lia. }
    all: left;
      unfold set_thickness, set_cap_style, set_cap_precision,
        set_progress_colour, set_background_colour, set_widget_size,
        set_label, bind, self, assign, raise, label_at in H;
      destruct value; simpl in H;
      repeat match type of H with
        | context [if ?c then _ else _] => destruct c; simpl in H
        | context [match labels ?m !! ?r with _ => _ end] =>
            destruct (labels m !! r); simpl in H
        end;
      inversion H; subst; simpl; try exact Hlt;
      destruct (bar w); exact Hlt.
  - left. apply paints_only_refresh_text in H.
    destruct H as (_ & cv & ls & ->). apply Hpaint. exact Hlt.
  - left. apply draw_effect in H.
    destruct H as (_ & cv & ls & ->). apply Hpaint. exact Hlt.
  - left. apply paints_only_set_label_text in H.
    destruct H as (_ & cv & ls & ->). apply Hpaint. exact Hlt.
Qed.

Lemma bounds_meet_only_through_set_min_witness :
  _min_progress (bar drawn_at_50) < _max_progress (bar drawn_at_50) /\
  (_min_progress (bar (after (set_min (PInt 100) drawn_at_50) drawn_at_50)) <
   _max_progress (bar (after (set_min (PInt 100) drawn_at_50) drawn_at_50)) \/
   Assign Min (PInt 100) =
   Assign Min (PInt (_max_progress (bar drawn_at_50)))).
Proof.
  assert (Hlt : _min_progress (bar drawn_at_50) <
                _max_progress (bar drawn_at_50))
    by (vm_compute; reflexivity).
  split; [exact Hlt |].
  apply (bounds_meet_only_through_set_min glyphs (Assign Min (PInt 100))
           drawn_at_50 _ Hlt).
  vm_compute. reflexivity.
Defined.

(** ** Templates without surprises *)

Lemma format_from_prefix (pre rest : string) (num : PyStr.numbering)
  (arg : string) :
  no_braces pre = true ->
  PyStr.format_from PyStr.InText num arg (pre ++ rest) =
  PyStr.emit pre (PyStr.format_from PyStr.InText num arg rest).
Proof.
  induction pre as [| c r IH]; intros Hp.
  - change ("" ++ rest) with rest.
    destruct (PyStr.format_from PyStr.InText num arg rest); reflexivity.
  - simpl in Hp. apply andb_true_iff in Hp. destruct Hp as [Hc Hr].
    apply andb_true_iff in Hc. destruct Hc as [Ho Hcl].
    apply negb_true_iff in Ho, Hcl.
    change (String c r ++ rest) with (String c (r ++ rest)).
    cbn [PyStr.format_from]. rewrite Ho, Hcl, (IH Hr).
    destruct (PyStr.format_from PyStr.InText num arg rest); reflexivity.
Qed.

Lemma append_empty_r (s : string) : s ++ "" = s.
Proof.
  induction s as [| c r IH]; [reflexivity |].
  change (String c r ++ "") with (String c (r ++ "")). rewrite IH. reflexivity.
Qed.

Lemma format_from_no_braces (s : string) (num : PyStr.numbering)
  (arg : string) :
  no_braces s = true ->
  PyStr.format_from PyStr.InText num arg s = PyStr.FOk s.
Proof.
  intros Hs. rewrite <- (append_empty_r s) at 1.
  rewrite (format_from_prefix s "" num arg Hs). simpl.
  rewrite append_empty_r. reflexivity.
Qed.

Lemma format_one_slot (pre suf arg : string) :
  no_braces pre = true -> no_braces suf = true ->
  PyStr.format (pre ++ "{}" ++ suf) arg = PyStr.FOk (pre ++ arg ++ suf).
Proof.
  intros Hp Hs. unfold PyStr.format.
  rewrite (format_from_prefix pre _ _ _ Hp).
  change (PyStr.format_from PyStr.InText PyStr.NumInit arg ("{}" ++ suf))
    with (PyStr.emit arg
            (PyStr.format_from PyStr.InText PyStr.NumAuto arg suf)).
  rewrite (format_from_no_braces suf _ _ Hs). reflexivity.
Qed.

(** X7: when a text refresh returns with a template that has no brace
    (the empty text that removes the label, for one), the text of the
    label is the template itself; with a template made of a brace-free
    prefix, one [{}] and a brace-free suffix, it is the prefix, the
    percentage text and the suffix. *)
Theorem refresh_text_of_plain_templates render_size (w w' : World) :
  _refresh_text render_size w = Ret tt w' ->
  (no_braces (_default_label_text (bar w)) = true ->
   exists l : Label,
     labels w' !! _text_label (bar w) = Some l /\
     text l = _default_label_text (bar w)) /\
  (forall pre suf : string,
      _default_label_text (bar w) = pre ++ "{}" ++ suf ->
      no_braces pre = true -> no_braces suf = true ->
      exists (p : Q) (arg : string) (l : Label),
        get_normalised_progress w = Ret p w /\
        percent_text p w = Ret arg w /\
        labels w' !! _text_label (bar w) = Some l /\
        text l = pre ++ arg ++ suf).
Proof.
  intros H.
  destruct (refresh_text_renders render_size w w' H)
    as (p & arg & l & Hp & Ha & Hf & Hl).
  split.
  - intros Hn. exists l. split; [exact Hl |].
    unfold PyStr.format in Hf. rewrite (format_from_no_braces _ _ _ Hn) in Hf.
    inversion Hf. reflexivity.
  - intros pre suf Ht Hpre Hsuf. exists p, arg, l.
    repeat (split; [assumption |]).
    rewrite Ht, (format_one_slot pre suf arg Hpre Hsuf) in Hf.
    inversion Hf. reflexivity.
Qed.

Lemma refresh_text_of_plain_templates_witness :
  _refresh_text glyphs relabel_d = Ret tt relabel_e /\
  exists (p : Q) (arg : string) (l : Label),
    get_normalised_progress relabel_d = Ret p relabel_d /\
    percent_text p relabel_d = Ret arg relabel_d /\
    labels relabel_e !! _text_label (bar relabel_d) = Some l /\
    text l = "--=" ++ arg ++ "=--".
Proof.
  assert (H : _refresh_text glyphs relabel_d = Ret tt relabel_e)
    by (vm_compute; reflexivity).
  split; [exact H |].
  destruct (refresh_text_of_plain_templates glyphs relabel_d relabel_e H)
    as [_ Hslot].
  apply (Hslot "--=" "=--"); vm_compute; reflexivity.
Defined.

(** ** The label object that every default widget shares *)

(** X8: when a widget that draws on the module-level label object has
    refreshed its text, a widget constructed afterwards takes the text
    just rendered, not the original template, as its template, and refers
    to the same label object. *)
Theorem new_widget_takes_rendered_text
  render_size (w w1 w2 : World) (p : Q * Q) :
  _text_label (bar w) = _DEFAULT_TEXT_LABEL ->
  _refresh_text render_size w = Ret tt w1 ->
  __init__ p w1 = Ret tt w2 ->
  exists (q : Q) (arg : string) (l : Label),
    get_normalised_progress w = Ret q w /\
    percent_text q w = Ret arg w /\
    PyStr.format (_default_label_text (bar w)) arg = PyStr.FOk (text l) /\
    labels w1 !! _DEFAULT_TEXT_LABEL = Some l /\
    _default_label_text (bar w2) = text l /\
    _text_label (bar w2) = _DEFAULT_TEXT_LABEL.
Proof.
  intros Hdef Href Hinit.
  destruct (refresh_text_renders render_size w w1 Href)
    as (q & arg & l & Hq & Ha & Hf & Hl).
  rewrite Hdef in Hl.
  exists q, arg, l. repeat (split; [assumption |]).
  unfold __init__, bind, label_at, assign in Hinit. rewrite Hl in Hinit.
  inversion Hinit. split; reflexivity.
Qed.

Lemma new_widget_takes_rendered_text_witness :
  _text_label (bar fresh) = _DEFAULT_TEXT_LABEL /\
  _default_label_text (bar fresh) = "{}%" /\
  _default_label_text
    (bar (after (__init__ (0%Q, 0%Q) drawn_at_50) drawn_at_50)) = "50%" /\
  exists (q : Q) (arg : string) (l : Label),
    get_normalised_progress (stored 50 fresh) = Ret q (stored 50 fresh) /\
    percent_text q (stored 50 fresh) = Ret arg (stored 50 fresh) /\
    PyStr.format (_default_label_text (bar (stored 50 fresh))) arg =
      PyStr.FOk (text l) /\
    labels (after (_refresh_text glyphs (stored 50 fresh)) fresh)
      !! _DEFAULT_TEXT_LABEL = Some l /\
    _default_label_text
      (bar (after (__init__ (0%Q, 0%Q)
                     (after (_refresh_text glyphs (stored 50 fresh)) fresh))
              fresh)) = text l /\
    _text_label
      (bar (after (__init__ (0%Q, 0%Q)
                     (after (_refresh_text glyphs (stored 50 fresh)) fresh))
              fresh)) = _DEFAULT_TEXT_LABEL.
Proof.
  split; [reflexivity |]. split; [reflexivity |].
  split; [vm_compute; reflexivity |].
  apply (new_widget_takes_rendered_text glyphs (stored 50 fresh)
           (after (_refresh_text glyphs (stored 50 fresh)) fresh)
           (after (__init__ (0%Q, 0%Q)
                     (after (_refresh_text glyphs (stored 50 fresh)) fresh))
              fresh)
           (0%Q, 0%Q)).
  - reflexivity.
  - vm_compute. reflexivity.
  - vm_compute. reflexivity.
Defined.

(** ** The animation *)

Lemma animate_bar_sets_next render_size (w : World) :
  animate_bar render_size w =
  set_value render_size (PInt (next_value (bar w))) w.
Proof.
  unfold animate_bar, next_value, bind, self.
  destruct (_value (bar w) <? _max_progress (bar w)); reflexivity.
Qed.

(** What a returning step of the animation has done to the value and the
    bounds. *)
Lemma animate_bar_returns render_size (w w' : World) :
  animate_bar render_size w = Ret tt w' ->
  _value (bar w') = next_value (bar w) /\
  _min_progress (bar w') = _min_progress (bar w) /\
  _max_progress (bar w') = _max_progress (bar w).
Proof.
  rewrite animate_bar_sets_next, set_value_int.
  destruct ((_min_progress (bar w) >? next_value (bar w)) &&
            (next_value (bar w) >? _max_progress (bar w)));
    [discriminate |].
  destruct (next_value (bar w) =? _value (bar w)) eqn:E; cbv [negb].
  - intros H. inversion H; subst. apply Z.eqb_eq in E. auto.
  - intros H.
    assert (Hf : final (_draw render_size (stored (next_value (bar w)) w)) =
                 Some w') by (rewrite H; reflexivity).
    apply draw_effect in Hf. destruct Hf as (_ & cv & ls & ->).
    cbv [stored bar]. destruct w as [wl [] wn]; cbn. auto.
Qed.

(** X9: one step of the animation of a widget whose bounds are in order
    leaves the bounds alone and moves the value to the next one: one
    more while it is below the maximum, the minimum otherwise.  From a
    value of at least the minimum less one, the new value lies between
    the bounds; and with the minimum below the maximum every step
    redraws exactly once.  This holds whether the step returns or the
    redraw raises. *)
Theorem animate_bar_steps render_size (w w' : World) :
  _min_progress (bar w) <= _max_progress (bar w) ->
  final (animate_bar render_size w) = Some w' ->
  _value (bar w') = next_value (bar w) /\
  _min_progress (bar w') = _min_progress (bar w) /\
  _max_progress (bar w') = _max_progress (bar w) /\
  (_min_progress (bar w) - 1 <= _value (bar w) ->
   _min_progress (bar w') <= _value (bar w') <= _max_progress (bar w')) /\
  (_min_progress (bar w) < _max_progress (bar w) ->
   draw_calls w' = S (draw_calls w)).
Proof.
  intros Hb.
  rewrite animate_bar_sets_next, set_value_int.
  rewrite bounds_test_dead by exact Hb.
  assert (Hrange : _min_progress (bar w) - 1 <= _value (bar w) ->
                   _min_progress (bar w) <= next_value (bar w)
                   <= _max_progress (bar w)).
  { unfold next_value.
    destruct (_value (bar w) <? _max_progress (bar w)) eqn:E;
      [apply Z.ltb_lt in E | apply Z.ltb_ge in E]; lia. }
  assert (Hmoves : _min_progress (bar w) < _max_progress (bar w) ->
                   next_value (bar w) <> _value (bar w)).
  { unfold next_value.
    destruct (_value (bar w) <? _max_progress (bar w)) eqn:E;
      [apply Z.ltb_lt in E | apply Z.ltb_ge in E]; lia. }
  destruct (next_value (bar w) =? _value (bar w)) eqn:E; cbv [negb].
  - intros H. cbv [final] in H. inversion H; subst w'. apply Z.eqb_eq in E.
    repeat split; auto; try lia;
      intros Hlt; exfalso; apply (Hmoves Hlt); exact E.
  - intros H. apply draw_effect in H. destruct H as (Hd & cv & ls & Hbar).
    rewrite Hbar. simpl.
    replace (_value (with_canvas cv (with_label_size ls
               (with_value (next_value (bar w)) (bar w)))))
      with (next_value (bar w)) by (destruct (bar w); reflexivity).
    replace (_min_progress (with_canvas cv (with_label_size ls
               (with_value (next_value (bar w)) (bar w)))))
      with (_min_progress (bar w)) by (destruct (bar w); reflexivity).
    replace (_max_progress (with_canvas cv (with_label_size ls
               (with_value (next_value (bar w)) (bar w)))))
      with (_max_progress (bar w)) by (destruct (bar w); reflexivity).
    simpl in Hd.
    split; [reflexivity |]. split; [reflexivity |]. split; [reflexivity |].
    split; [exact Hrange | intros _; exact Hd].
Qed.

Lemma animate_bar_steps_witness :
  _min_progress (bar drawn_at_50) <= _max_progress (bar drawn_at_50) /\
  _value (bar (after (animate_bar glyphs drawn_at_50) drawn_at_50)) =
    next_value (bar drawn_at_50) /\
  next_value (bar drawn_at_50) = 51.
Proof.
  assert (Hb : _min_progress (bar drawn_at_50) <=
               _max_progress (bar drawn_at_50))
    by (vm_compute; discriminate).
  assert (H : final (animate_bar glyphs drawn_at_50) =
              Some (after (animate_bar glyphs drawn_at_50) drawn_at_50))
    by (vm_compute; reflexivity).
  split; [exact Hb |]. split; [| vm_compute; reflexivity].
  exact (proj1 (animate_bar_steps glyphs drawn_at_50 _ Hb H)).
Defined.

(** The next value, for a value between the bounds, in closed form. *)
Lemma next_value_mod (b : CircularProgressBar) :
  _min_progress b <= _value b <= _max_progress b ->
  next_value b =
  _min_progress b +
  (_value b - _min_progress b + 1) mod (_max_progress b - _min_progress b + 1).
Proof.
  intros Hv. unfold next_value.
  destruct (_value b <? _max_progress b) eqn:E.
  - apply Z.ltb_lt in E. rewrite Z.mod_small by lia. lia.
  - apply Z.ltb_ge in E.
    replace (_value b - _min_progress b + 1)
      with (_max_progress b - _min_progress b + 1) by lia.
    rewrite Z.mod_same by lia. lia.
Qed.

Lemma animate_ticks_closed_form render_size (n : nat) :
  forall w w' : World,
    _min_progress (bar w) <= _value (bar w) <= _max_progress (bar w) ->
    animate_ticks render_size n w = Ret tt w' ->
    _min_progress (bar w') = _min_progress (bar w) /\
    _max_progress (bar w') = _max_progress (bar w) /\
    _value (bar w') =
    _min_progress (bar w) +
    (_value (bar w) - _min_progress (bar w) + Z.of_nat n)
    mod (_max_progress (bar w) - _min_progress (bar w) + 1).
Proof.
  induction n as [| n IH]; intros w w' Hv H.
  - inversion H; subst w'. split; [reflexivity |]. split; [reflexivity |].
    rewrite Z.add_0_r, Z.mod_small by lia. lia.
  - simpl animate_ticks in H. unfold bind in H.
    destruct (animate_bar render_size w) as [[] w1 | e w1 |] eqn:E;
      try discriminate H.
    destruct (animate_bar_returns render_size w w1 E) as (Hval & Hmin & Hmax).
    rewrite (next_value_mod (bar w) Hv) in Hval.
    set (P := _max_progress (bar w) - _min_progress (bar w) + 1) in *.
    assert (HP : 0 < P) by (unfold P; lia).
    assert (Hv1 : _min_progress (bar w1) <= _value (bar w1)
                  <= _max_progress (bar w1)).
    { rewrite Hval, Hmin, Hmax.
      pose proof (Z.mod_pos_bound
                    (_value (bar w) - _min_progress (bar w) + 1) P HP).
      unfold P in *. lia. }
    destruct (IH w1 w' Hv1 H) as (Hmin' & Hmax' & Hval').
    rewrite Hmin, Hmax in *. fold P in Hval'.
    split; [exact Hmin' |]. split; [exact Hmax' |].
    rewrite Hval', Hval.
    replace (_min_progress (bar w) +
             (_value (bar w) - _min_progress (bar w) + 1) mod P -
             _min_progress (bar w) + Z.of_nat n)
      with ((_value (bar w) - _min_progress (bar w) + 1) mod P + Z.of_nat n)
      by lia.
    rewrite Z.add_mod_idemp_l by lia.
    replace (_value (bar w) - _min_progress (bar w) + 1 + Z.of_nat n)
      with (_value (bar w) - _min_progress (bar w) + Z.of_nat (S n)) by lia.
    reflexivity.
Qed.

(** X10: the animation of one widget is periodic: from a value between
    the bounds, [n] steps that all return leave the bounds alone and the
    value at
    [min + (value - min + n) mod (max - min + 1)]; so after
    [max - min + 1] steps the value is back where it was. *)
Theorem animation_is_periodic render_size (n : nat) (w w' : World) :
  _min_progress (bar w) <= _value (bar w) <= _max_progress (bar w) ->
  animate_ticks render_size n w = Ret tt w' ->
  _value (bar w') =
    _min_progress (bar w) +
    (_value (bar w) - _min_progress (bar w) + Z.of_nat n)
    mod (_max_progress (bar w) - _min_progress (bar w) + 1) /\
  _min_progress (bar w') = _min_progress (bar w) /\
  _max_progress (bar w') = _max_progress (bar w) /\
  (Z.of_nat n = _max_progress (bar w) - _min_progress (bar w) + 1 ->
   _value (bar w') = _value (bar w)).
Proof.
  intros Hv H.
  destruct (animate_ticks_closed_form render_size n w w' Hv H)
    as (Hmin & Hmax & Hval).
  repeat split; try assumption.
  intros Hn. rewrite Hval, Hn.
  rewrite <- (Z.mul_1_l (_max_progress (bar w) - _min_progress (bar w) + 1))
    at 1.
  rewrite Z.mod_add by lia. rewrite Z.mod_small by lia. lia.
Qed.

Lemma animation_is_periodic_witness :
  _min_progress (bar short_range) <= _value (bar short_range)
  <= _max_progress (bar short_range) /\
  animate_ticks glyphs 3 short_range =
    Ret tt (after (animate_ticks glyphs 3 short_range) short_range) /\
  Z.of_nat 3 =
    _max_progress (bar short_range) - _min_progress (bar short_range) + 1 /\
  _value (bar (after (animate_ticks glyphs 3 short_range) short_range)) =
    _value (bar short_range).
Proof.
  assert (Hv : _min_progress (bar short_range) <= _value (bar short_range)
               <= _max_progress (bar short_range))
    by (split; vm_compute; discriminate).
  assert (H : animate_ticks glyphs 3 short_range =
              Ret tt (after (animate_ticks glyphs 3 short_range) short_range))
    by (vm_compute; reflexivity).
  assert (Hn : Z.of_nat 3 =
               _max_progress (bar short_range) -
               _min_progress (bar short_range) + 1)
    by (vm_compute; reflexivity).
  split; [exact Hv |]. split; [exact H |]. split; [exact Hn |].
  destruct (animation_is_periodic glyphs 3 short_range _ Hv H)
    as (_ & _ & _ & Hback).
  exact (Hback Hn).
Defined.

(** *** All the children *)





(** ** The percentage and the angle *)

Lemma exponent_le_log2 (n d N : Z) :
  0 < n -> 0 < d -> 0 < N -> n <= N * d -> Float.exponent n d <= Z.log2 N + 1.
Proof.
  intros Hn Hd HN Hle. unfold Float.exponent.
  pose proof (Z.log2_le_mono n (N * d) Hle) as H1.
  pose proof (Z.log2_mul_above N d ltac:(lia) ltac:(lia)) as H2.
  destruct (Float.below_pow2 n d (Z.log2 n - Z.log2 d)); lia.
Qed.

Lemma round_pos_bounded (n d N : Z) :
  0 < n -> 0 < d -> 0 < N -> Z.log2 N < 51 -> n <= N * d ->
  exists r : Q, Float.round_pos n d = Some r /\ (0 <= r <= inject_Z N)%Q.
Proof.
  intros Hn Hd HN Hlog Hle. unfold Float.round_pos.
  pose proof (exponent_le_log2 n d N Hn Hd HN Hle) as He.
  set (u := Z.max (Float.exponent n d - 52) (- 1074)).
  assert (Hu : u < 0) by (unfold u; lia).
  destruct (0 <=? u) eqn:E; [apply Z.leb_le in E; lia |].
  eexists. split; [reflexivity |].
  assert (Hp : 0 < 2 ^ (- u)) by (apply Z.pow_pos_nonneg; lia).
  set (m := Float.round_half_even (n * 2 ^ (- u)) d).
  assert (Hm0 : 0 <= m)
    by (apply round_half_even_nonneg; nia).
  assert (Hm1 : m <= N * 2 ^ (- u))
    by (apply round_half_even_le; nia).
  rewrite Qred_correct. unfold Qle. simpl.
  rewrite Z2Pos.id by exact Hp. lia.
Qed.

(** A rational between 0 and an integer [N] below [2 ^ 51] rounds to a
    float between 0 and [N]. *)
Lemma binary64_bounded (q : Q) (N : Z) :
  0 < N -> Z.log2 N < 51 -> (0 <= q <= inject_Z N)%Q ->
  exists r : Q, Float.binary64 q = Some r /\ (0 <= r <= inject_Z N)%Q.
Proof.
  intros HN Hlog Hq. rewrite <- (Qred_correct q) in Hq.
  unfold Float.binary64.
  destruct (Qred q) as [n d]. unfold Qle in Hq. simpl in *.
  destruct n as [| n | n].
  - exists 0%Q. split; [reflexivity |]. split; unfold Qle; simpl; lia.
  - apply round_pos_bounded; lia.
  - lia.
Qed.

(** [int(x)] of a float between 0 and [N]. *)
Lemma to_int_bounded (x : Q) (N : Z) :
  (0 <= x <= inject_Z N)%Q -> 0 <= Float.to_int x <= N.
Proof.
  destruct x as [n d]. unfold Qle, Float.to_int. simpl.
  intros [H0 HN]. rewrite Z.mul_1_r in *.
  rewrite Z.quot_div_nonneg by lia.
  split; [apply Z.div_pos; lia |].
  apply Z.div_le_upper_bound; lia.
Qed.

(** The normalised progress of a value between the bounds. *)
Lemma progress_between_bounds (w : World) :
  _min_progress (bar w) < _max_progress (bar w) ->
  _min_progress (bar w) <= _value (bar w) <= _max_progress (bar w) ->
  exists p : Q,
    get_normalised_progress w = Ret p w /\ (0 <= p <= 1)%Q /\
    (_value (bar w) = _min_progress (bar w) -> p = 0%Q) /\
    (_value (bar w) = _max_progress (bar w) -> p = 1%Q).
Proof.
  intros Hlt Hv.
  set (num := (_value (bar w) - _min_progress (bar w)) *
              (_NORMALISED_MAX - _NORMALISED_MIN)).
  set (den := _max_progress (bar w) - _min_progress (bar w)).
  pose proof (quotient_unit _ _ _ Hlt Hv) as Hq. fold num den in Hq.
  destruct (binary64_unit _ Hq) as (q & Eq & Hq1).
  assert (Hsum : (0 <= 0 + q <= 1)%Q) by (rewrite Qplus_0_l; exact Hq1).
  destruct (binary64_unit _ Hsum) as (p & Ep & Hp).
  exists p. split; [| split; [exact Hp | split]].
  - unfold get_normalised_progress, bind, self, truediv. fold num den.
    destruct (den =? 0) eqn:E; [apply Z.eqb_eq in E; unfold den in E; lia |].
    rewrite Eq. unfold ret, float_of_int.
    change (Float.binary64 (inject_Z _NORMALISED_MIN)) with (Some 0%Q).
    cbv beta iota delta [ret fadd float_result]. rewrite Ep. reflexivity.
  - intros Hmin.
    assert (Hz : Float.binary64 (inject_Z num / inject_Z den) = Some 0%Q).
    { apply binary64_of_0. unfold num. rewrite Hmin, Z.sub_diag. reflexivity. }
    rewrite Hz in Eq. inversion Eq; subst q.
    rewrite binary64_of_0 in Ep by reflexivity.
    inversion Ep. reflexivity.
  - intros Hmax.
    assert (Hz : Float.binary64 (inject_Z num / inject_Z den) = Some 1%Q).
    { apply binary64_of_1. unfold num, den. rewrite Hmax.
      unfold _NORMALISED_MAX, _NORMALISED_MIN.
      rewrite Z.sub_0_r, Z.mul_1_r. apply Qmult_inv_r.
      intros H0. replace 0%Q with (inject_Z 0) in H0 by reflexivity.
      apply (proj1 (inject_Z_injective _ _)) in H0. lia. }
    rewrite Hz in Eq. inversion Eq; subst q.
    rewrite binary64_of_1 in Ep by reflexivity.
    inversion Ep. reflexivity.
Qed.

Lemma binary64_100 : Float.binary64 (inject_Z 100) = Some (inject_Z 100).
Proof. vm_compute. reflexivity. Qed.

Lemma binary64_360 : Float.binary64 (inject_Z 360) = Some (inject_Z 360).
Proof. vm_compute. reflexivity. Qed.

(** A float [p] of the unit interval scaled by the integer [N]. *)
Lemma scaled_unit (p : Q) (N : Z) :
  0 < N -> Z.log2 N < 51 -> (0 <= p <= 1)%Q ->
  exists x : Q,
    Float.binary64 (p * inject_Z N) = Some x /\ (0 <= x <= inject_Z N)%Q.
Proof.
  intros HN Hlog [H0 H1]. apply binary64_bounded; try assumption.
  assert (HNq : (0 <= inject_Z N)%Q).
  { replace 0%Q with (inject_Z 0) by reflexivity. rewrite <- Zle_Qle. lia. }
  split.
  - apply Qmult_le_0_compat; assumption.
  - rewrite <- (Qmult_1_l (inject_Z N)) at 2.
    apply Qmult_le_compat_r; assumption.
Qed.

(** The text of the percentage for a float of the unit interval. *)
Lemma percent_text_unit (p : Q) (w : World) :
  (0 <= p <= 1)%Q ->
  exists n : Z,
    percent_text p w = Ret (PyStr.str_of_int n) w /\ 0 <= n <= 100 /\
    (p = 0%Q -> n = 0) /\ (p = 1%Q -> n = 100).
Proof.
  intros Hp.
  destruct (scaled_unit p 100 ltac:(lia) ltac:(vm_compute; reflexivity) Hp)
    as (x & Ex & Hx).
  exists (Float.to_int x).
  split; [| split; [apply to_int_bounded; exact Hx | split]].
  - unfold percent_text, bind, float_of_int. rewrite binary64_100.
    unfold ret, fmul, float_result. rewrite Ex. reflexivity.
  - intros ->. vm_compute in Ex. inversion Ex. reflexivity.
  - intros ->. vm_compute in Ex. inversion Ex. reflexivity.
Qed.

(** X12: for a widget whose minimum is below its maximum and whose value
    lies between the two, a text refresh that returns has put into the
    template the decimal text of an integer between 0 and 100, and made
    the result the text of the label: 0 when the value is the minimum,
    100 when it is the maximum. *)
Theorem label_shows_a_percentage render_size (w w' : World) :
  _min_progress (bar w) < _max_progress (bar w) ->
  _min_progress (bar w) <= _value (bar w) <= _max_progress (bar w) ->
  _refresh_text render_size w = Ret tt w' ->
  exists (n : Z) (l : Label),
    0 <= n <= 100 /\
    labels w' !! _text_label (bar w) = Some l /\
    PyStr.format (_default_label_text (bar w)) (PyStr.str_of_int n) =
      PyStr.FOk (text l) /\
    (_value (bar w) = _min_progress (bar w) -> n = 0) /\
    (_value (bar w) = _max_progress (bar w) -> n = 100).
Proof.
  intros Hlt Hv H.
  destruct (refresh_text_renders render_size w w' H)
    as (p & arg & l & Hp & Ha & Hf & Hl).
  destruct (progress_between_bounds w Hlt Hv) as (p' & Hp' & Hr & H0 & H1).
  rewrite Hp in Hp'. inversion Hp'; subst p'.
  destruct (percent_text_unit p w Hr) as (n & Hn & Hn100 & Hn0 & Hn1).
  rewrite Ha in Hn. inversion Hn; subst arg.
  exists n, l. repeat (split; [assumption |]). split; auto.
Qed.

Lemma label_shows_a_percentage_witness :
  _min_progress (bar (stored 29 fresh)) < _max_progress (bar (stored 29 fresh)) /\
  _min_progress (bar (stored 29 fresh)) <= _value (bar (stored 29 fresh))
  <= _max_progress (bar (stored 29 fresh)) /\
  _refresh_text glyphs (stored 29 fresh) =
    Ret tt (after (_refresh_text glyphs (stored 29 fresh)) fresh) /\
  labels (after (_refresh_text glyphs (stored 29 fresh)) fresh)
    !! _text_label (bar (stored 29 fresh)) =
    Some (mkLabel "28%" 40 (Some (mkTexture "28%" (60, 40)))) /\
  exists (n : Z) (l : Label),
    0 <= n <= 100 /\
    labels (after (_refresh_text glyphs (stored 29 fresh)) fresh)
      !! _text_label (bar (stored 29 fresh)) = Some l /\
    PyStr.format (_default_label_text (bar (stored 29 fresh)))
      (PyStr.str_of_int n) = PyStr.FOk (text l) /\
    (_value (bar (stored 29 fresh)) = _min_progress (bar (stored 29 fresh)) ->
     n = 0) /\
    (_value (bar (stored 29 fresh)) = _max_progress (bar (stored 29 fresh)) ->
     n = 100).
Proof.
  assert (Hlt : _min_progress (bar (stored 29 fresh)) <
                _max_progress (bar (stored 29 fresh)))
    by (vm_compute; reflexivity).
  assert (Hv : _min_progress (bar (stored 29 fresh)) <=
               _value (bar (stored 29 fresh)) <=
               _max_progress (bar (stored 29 fresh)))
    by (split; vm_compute; discriminate).
  assert (H : _refresh_text glyphs (stored 29 fresh) =
              Ret tt (after (_refresh_text glyphs (stored 29 fresh)) fresh))
    by (vm_compute; reflexivity).
  split; [exact Hlt |]. split; [exact Hv |]. split; [exact H |].
  split; [vm_compute; reflexivity |].
  exact (label_shows_a_percentage glyphs (stored 29 fresh) _ Hlt Hv H).
Defined.

(** ** What a redraw leaves on the canvas *)

(** Putting the equations a symbolic run has collected into shape. *)
Ltac tidy :=
  repeat match goal with
  | H : ?x = ?x |- _ => clear H
  | H : context [<[?i := _]> _ !! ?i] |- _ => rewrite lookup_insert_eq in H
  | H : Some ?a = Some ?b |- _ =>
      assert (a = b) by (injection H; auto); clear H; subst
  | H : Float.binary64 (inject_Z 360) = Some _ |- _ =>
      rewrite binary64_360 in H
  | H : Float.binary64 (inject_Z 100) = Some _ |- _ =>
      rewrite binary64_100 in H
  | H1 : ?e = Some _, H2 : ?e = Some _ |- _ => rewrite H1 in H2
  | H : _ |- _ =>
      progress cbn [fst snd text font_size texture size rendered] in H
  end.

(** Running a computation whose branches are all known. *)
Ltac wp_known :=
  repeat (first
    [ wp_step
    | progress cbn [bar labels draw_calls with_canvas with_value
        with_label_size _thickness _cap_style _cap_precision _progress_colour
        _background_colour _max_progress _min_progress _widget_size
        _text_label _value _default_label_text _label_size pos canvas stored
        text font_size texture size rendered fst snd]
    | rewrite lookup_insert_eq
    | rewrite binary64_360
    | rewrite binary64_100
    | match goal with
      | H : ?e = _ |- context [match ?e with _ => _ end] => rewrite H
      | H : ?e = _ |- context [if ?e then _ else _] => rewrite H
      end ]).

(** From a run that returned to the weakest precondition of the run. *)
Ltac by_wp H :=
  match type of H with
  | ?c ?w = Ret tt ?w' =>
      match goal with
      | |- ?G =>
          let P := eval pattern w' in G in
          match P with
          | ?F _ =>
              cut (wp c (fun _ => F) (fun _ _ => True) True w);
              [ let Hwp := fresh "Hwp" in
                intros Hwp; exact (wp_returns _ _ _ _ _ _ _ Hwp H)
              | clear H ]
          end
      end
  end.

(** X13: a redraw that returns leaves exactly six instructions on the
    canvas, whatever was there before: the background colour, a full
    circle, the progress colour, an arc of the same circle from 0 to 360
    times the normalised progress with the cap style and precision of
    the widget, white, and a rectangle with the texture of the label,
    of the size of that texture.  For a value between the bounds the
    angle lies between 0 and 360. *)
Theorem redraw_paints_six_instructions render_size (w w' : World) :
  _draw render_size w = Ret tt w' ->
  exists (bg fg : list pyval) (x y r p angle cx cy : Q) (l : Label)
         (t : Texture),
    unpack (_background_colour (bar w)) = Some bg /\
    unpack (_progress_colour (bar w)) = Some fg /\
    centre (bar w) (fst (pos (bar w))) w = Ret x w /\
    centre (bar w) (snd (pos (bar w))) w = Ret y w /\
    radius (bar w) w = Ret r w /\
    get_normalised_progress w = Ret p w /\
    sweep p w = Ret angle w /\
    labels w' !! _text_label (bar w) = Some l /\
    texture l = Some t /\
    _label_size (bar w') = size t /\
    corner (bar w) (fst (size t)) (fst (pos (bar w))) w = Ret cx w /\
    corner (bar w) (snd (size t)) (snd (pos (bar w))) w = Ret cy w /\
    canvas (bar w') =
      [Color bg;
       Line [x; y; r] (_thickness (bar w)) None;
       Color fg;
       Line [x; y; r; inject_Z 0; angle] (_thickness (bar w))
         (Some (_cap_style (bar w), _cap_precision (bar w)));
       Color [PInt 1; PInt 1; PInt 1; PInt 1];
       Rectangle (Some t) (size t) (cx, cy)] /\
    (_min_progress (bar w) < _max_progress (bar w) ->
     _min_progress (bar w) <= _value (bar w) <= _max_progress (bar w) ->
     (0 <= angle <= inject_Z 360)%Q).
Proof.
  intros H. by_wp H.
  match goal with |- wp _ ?F _ _ _ => set (Q := F) end.
  assert (Hp := progress_between_bounds w).
  destruct w as [ls [th cs cp pc bc mx mn ws tl v dt lsz [px py] cv] n].
  unfold_draw.
  wp_run; try exact I.
  tidy. subst Q. cbv beta.
  cbn [bar labels draw_calls with_canvas with_label_size _thickness
       _cap_style _cap_precision _progress_colour _background_colour
       _max_progress _min_progress _widget_size _text_label _value
       _default_label_text _label_size pos canvas fst snd app] in *.
  do 10 eexists. exists {| rendered := s; size := render_size s (font_size l) |}.
  repeat match goal with
  | |- _ /\ _ => split
  | |- unpack _ = _ => eassumption
  | |- _ = Ret _ _ =>
      apply wp_result;
      unfold get_normalised_progress, centre, radius, corner, sweep,
        fadd, fsub, fmul;
      wp_known; reflexivity
  end.
  - rewrite lookup_insert_eq. reflexivity.
  - reflexivity.
  - reflexivity.
  - reflexivity.
  - intros Hlt Hv. destruct (Hp Hlt Hv) as (p' & Hrun & Hr & _).
    assert (Hq : get_normalised_progress
                   (mkWorld ls (mkBar th cs cp pc bc mx mn ws tl v dt lsz
                                  (px, py) cv) n) =
                 Ret q20 (mkWorld ls (mkBar th cs cp pc bc mx mn ws tl v dt
                                        lsz (px, py) cv) n)).
    { apply wp_result. unfold get_normalised_progress, fadd.
      wp_known. reflexivity. }
    rewrite Hq in Hrun. inversion Hrun; subst p'.
    match goal with
    | H : Float.binary64 (q20 * inject_Z 360) = Some _ |- _ =>
        rename H into Hangle
    end.
    destruct (scaled_unit q20 360 ltac:(lia) ltac:(vm_compute; reflexivity) Hr)
      as (x & Ex & Hx).
    rewrite Hangle in Ex. inversion Ex; subst. exact Hx.
Qed.

Lemma redraw_paints_six_instructions_witness :
  _draw glyphs (stored 50 fresh) = Ret tt drawn_at_50 /\
  length (canvas (bar drawn_at_50)) = 6%nat /\
  canvas (bar (stored 50 fresh)) = [].
Proof.
  assert (H : _draw glyphs (stored 50 fresh) = Ret tt drawn_at_50)
    by (vm_compute; reflexivity).
  split; [exact H |]. split; [| reflexivity].
  destruct (redraw_paints_six_instructions glyphs _ _ H)
    as (bg & fg & x & y & r & p & angle & cx & cy & l & t & Hc).
  destruct Hc as (_ & _ & _ & _ & _ & _ & _ & _ & _ & _ & _ & _ & Hc & _).
  rewrite Hc. reflexivity.
Defined.


